(** * TalentScout hiring assistant: a shallow embedding of [app.py]

    The application is one Streamlit script that is executed from top to
    bottom on every user interaction.  Its state lives in
    [st.session_state]; the only durable state is the file
    [candidate_data.json].  Three external services are called: a
    translator, a text generator and a sentiment scorer.

    The embedding follows the script: Python strings and their methods
    first, then the record store, then the script as a program in a small
    state-and-abort monad, and finally the properties. *)

From Stdlib Require Import Ascii String NArith ZArith QArith.
From stdpp Require Import base option list strings gmap fin_maps pretty.

Local Open Scope stdpp_scope.

(** ** Python [str] *)

(** A string is a sequence of code points; the model keeps the code points
    below 256, which is where Rocq's [ascii] lives.  On that range
    [str.lower], [str.strip], [str.split] and [in] are as below. *)
Module PyStr.

Definition code (c : ascii) : N := N_of_ascii c.

(** [str.isspace] on one character: TAB, LF, VT, FF, CR, the separators
    FS, GS, RS, US, the space, NEL and the no-break space. *)
Definition isspace (c : ascii) : bool :=
  let n := code c in
  ((9 <=? n) && (n <=? 13) || (28 <=? n) && (n <=? 32)
   || (n =? 133) || (n =? 160))%N.

(** [str.lower] on one character: A-Z, and the capital letters of the
    Latin-1 block (all of 192..222 but the multiplication sign). *)
Definition lower_char (c : ascii) : ascii :=
  let n := code c in
  if ((65 <=? n) && (n <=? 90)
      || (192 <=? n) && (n <=? 222) && negb (n =? 215))%N
  then ascii_of_N (n + 32) else c.

Fixpoint lower (s : string) : string :=
  match s with
  | EmptyString => EmptyString
  | String c t => String (lower_char c) (lower t)
  end.

Fixpoint lstrip (s : string) : string :=
  match s with
  | EmptyString => EmptyString
  | String c t => if isspace c then lstrip t else s
  end.

Definition rstrip (s : string) : string :=
  String.rev (lstrip (String.rev s)).

(** [s.strip()] *)
Definition strip (s : string) : string := rstrip (lstrip s).

(** Truth value of a string: the empty string is falsy. *)
Definition truthy (s : string) : bool :=
  match s with EmptyString => false | String _ _ => true end.

Fixpoint startswith (p s : string) : bool :=
  match p, s with
  | EmptyString, _ => true
  | String a p', String b s' => if ascii_dec a b then startswith p' s' else false
  | String _ _, EmptyString => false
  end.

(** [sub in s] *)
Fixpoint contains (sub s : string) : bool :=
  startswith sub s
  || match s with
     | EmptyString => false
     | String _ t => contains sub t
     end.

Definition newline : ascii := "010"%char.

(** [s.split("\n")]: one more piece than there are line feeds; pieces may
    be empty. *)
Fixpoint split_lines (s : string) : list string :=
  match s with
  | EmptyString => [EmptyString]
  | String c t =>
      if ascii_dec c newline then EmptyString :: split_lines t
      else match split_lines t with
           | h :: r => String c h :: r
           | [] => [String c EmptyString]
           end
  end.

(** The specification side of [in]: an occurrence somewhere in [s]. *)
Definition occurs_in (sub s : string) : Prop :=
  ∃ before after : string, s = before +:+ sub +:+ after.

End PyStr.

(** ** Tech stack validation (lines 82-85) *)

Definition valid_tech_keywords : list string :=
  ["python"; "java"; "c++"; "tensorflow"; "react"; "node.js"; "pandas"; "sql"].

Definition validate_tech_stack (stack : string) : bool :=
  let stack_lower := PyStr.lower stack in
  existsb (fun tech => PyStr.contains tech stack_lower) valid_tech_keywords.


(** ** Data held by the application *)

(** The three labels [analyze_sentiment] returns (the source prefixes each
    with an emoji, left out here). *)
Inductive sentiment_label := Positive | Negative | Neutral.

Definition label_text (l : sentiment_label) : string :=
  match l with
  | Positive => "Positive"
  | Negative => "Negative"
  | Neutral => "Neutral"
  end.

(** The dictionary built at lines 115-123. *)
Record profile := Profile {
  info_name : string;
  info_email : string;
  info_phone : string;
  info_experience : Z;
  info_position : string;
  info_location : string;
  info_tech_stack : string;
}.

(** One entry of [st.session_state.conversation] (lines 157-161). *)
Record exchange := Exchange {
  question : string;
  answer : string;
  sentiment : sentiment_label;
}.

(** The value stored under a candidate's email (lines 169-173). *)
Record candidate_record := CandidateRecord {
  info : profile;
  interview : list exchange;
  completed_date : string;
}.

(** [st.session_state] once lines 40-53 have run: the seven keys are
    created together on the first execution and never deleted, so the state
    is a record.  [candidate_info] is [None] for the empty dictionary. *)
Record session_state := SessionState {
  conversation : list exchange;
  question_index : nat;
  questions : list string;
  candidate_info : option profile;
  preferred_language : string;
  interview_started : bool;
  current_answer : string;
}.

(** Lines 40-53. *)
Definition initial_session : session_state :=
  {| conversation := [];
     question_index := 0;
     questions := [];
     candidate_info := None;
     preferred_language := "en";
     interview_started := false;
     current_answer := "" |}.

Definition set_conversation (v : list exchange) (s : session_state) :=
  {| conversation := v; question_index := question_index s;
     questions := questions s; candidate_info := candidate_info s;
     preferred_language := preferred_language s;
     interview_started := interview_started s;
     current_answer := current_answer s |}.

Definition set_question_index (v : nat) (s : session_state) :=
  {| conversation := conversation s; question_index := v;
     questions := questions s; candidate_info := candidate_info s;
     preferred_language := preferred_language s;
     interview_started := interview_started s;
     current_answer := current_answer s |}.

Definition set_questions (v : list string) (s : session_state) :=
  {| conversation := conversation s; question_index := question_index s;
     questions := v; candidate_info := candidate_info s;
     preferred_language := preferred_language s;
     interview_started := interview_started s;
     current_answer := current_answer s |}.

Definition set_candidate_info (v : option profile) (s : session_state) :=
  {| conversation := conversation s; question_index := question_index s;
     questions := questions s; candidate_info := v;
     preferred_language := preferred_language s;
     interview_started := interview_started s;
     current_answer := current_answer s |}.

Definition set_preferred_language (v : string) (s : session_state) :=
  {| conversation := conversation s; question_index := question_index s;
     questions := questions s; candidate_info := candidate_info s;
     preferred_language := v;
     interview_started := interview_started s;
     current_answer := current_answer s |}.

Definition set_interview_started (v : bool) (s : session_state) :=
  {| conversation := conversation s; question_index := question_index s;
     questions := questions s; candidate_info := candidate_info s;
     preferred_language := preferred_language s;
     interview_started := v;
     current_answer := current_answer s |}.

Definition set_current_answer (v : string) (s : session_state) :=
  {| conversation := conversation s; question_index := question_index s;
     questions := questions s; candidate_info := candidate_info s;
     preferred_language := preferred_language s;
     interview_started := interview_started s;
     current_answer := v |}.

(** Truth value of a list: the empty list is falsy. *)
Definition nonempty {A : Type} (l : list A) : bool :=
  match l with [] => false | _ :: _ => true end.

(** ** The record store: [candidate_data.json] *)

(** What is at the path [DATA_FILE]: a file that [os.stat] cannot reach (a
    directory on the way that cannot be searched, a link to nothing), so
    that [os.path.exists] is false although the path is taken; a file that
    cannot be opened for reading; a file whose text [json.load] rejects;
    or a JSON document, which is a mapping from emails to records (a Python
    dictionary: one value per key). *)
Inductive file :=
| Unseen
| Unreadable
| Malformed (raw : string)
| Document (data : gmap string candidate_record).

(** [data_file] is [None] when nothing is at the path.  [writable] tells
    whether writing a document goes through: [open(DATA_FILE, "w")]
    succeeds and [json.dump] writes the whole text.  When it does not,
    [cut_short] tells how far the write gets: [None] when the open is
    refused, which leaves the file as it is; [Some raw] when the file is
    opened, and so emptied, and the write stops after the text [raw], a
    proper part of the document's text (no space left, a size limit), which
    [json.load] rejects. *)
Record storage := Storage {
  data_file : option file;
  writable : bool;
  cut_short : option string;
}.

Inductive exn := OSError | JSONDecodeError | KeyError | IndexError | ServiceError.

(** Lines 23-27 on a given storage: the file is opened only if
    [os.path.exists] finds it. *)
Definition load_from (d : storage) : exn + gmap string candidate_record :=
  match data_file d with
  | Some Unreadable => inl OSError
  | Some (Malformed _) => inl JSONDecodeError
  | Some (Document data) => inr data
  | Some Unseen | None => inr ∅
  end.

(** The text at the path is replaced.  Who may read the file does not
    change: a file that could not be opened for reading still cannot; a
    file that the write creates can. *)
Definition put (f : file) (d : storage) : storage :=
  {| data_file := Some match data_file d with
                       | Some Unreadable => Unreadable
                       | _ => f
                       end;
     writable := writable d;
     cut_short := cut_short d |}.

(** Lines 30-32 on a given storage: [open(DATA_FILE, "w")] empties the
    file before [json.dump] writes, so a write that fails after the open
    leaves a part of the text in place of what the file held.  The result is
    the new storage, or the exception with the storage that it leaves. *)
Definition dump_to (data : gmap string candidate_record) (d : storage)
  : exn * storage + storage :=
  if writable d then inr (put (Document data) d)
  else match cut_short d with
       | Some raw => inl (OSError, put (Malformed raw) d)
       | None => inl (OSError, d)
       end.

(** ** External services and the user's input *)

(** The services answer as functions of their arguments during one
    execution of the script; [None] is a raised exception. The polarity is
    a number in [-1, 1]. *)
Record services := Services {
  translate : string → string → option string;
  invoke : string → option string;
  polarity : string → Q;
}.

(** The keys of [lang_options] (line 56). *)
Inductive language := English | Telugu | Hindi | Tamil.

Definition lang_options (l : language) : string :=
  match l with
  | English => "en"
  | Telugu => "te"
  | Hindi => "hi"
  | Tamil => "ta"
  end.

(** What the widgets return in one execution of the script, under the names
    of the variables the script binds them to.  [typed_answer] is [None]
    when the answer box has not been edited: the box then returns its
    [value] argument.  A widget that the script does not reach in an
    execution is not read. *)
Record widgets := Widgets {
  selected_lang : language;
  full_name : string;
  email : string;
  phone : string;
  experience : Z;
  position : string;
  location : string;
  tech_stack : string;
  submit_info : bool;
  typed_answer : option string;
  submit_answer : bool;
  start_new : bool;
  show_admin : bool;
}.

(** [st.number_input(min_value, max_value, step=1)] returns an integer of
    the range; an entry outside of it is brought back to the nearer bound. *)
Definition number_input (min_value max_value entered : Z) : Z :=
  Z.max min_value (Z.min max_value entered).

(** [st.text_area(value=...)]. *)
Definition text_area (typed : option string) (value : string) : string :=
  default value typed.

(** What an execution shows and which services it calls, in order.  The
    texts are those of the source without their decorative emoji. *)
Inductive element :=
| title (text : string)
| write (text : string)
| subheader (text : string)
| warning (text : string)
| success (text : string)
| selectbox (label : string)
| text_input (label : string)
| number_box (label : string)
| text_box (label : string)
| form_submit_button (label : string)
| button (label : string)
| checkbox (label : string).

Inductive event :=
| Called_translate (text dest : string)
| Called_invoke (prompt : string)
| Called_polarity (text : string)
| Shown (e : element).

(** ** The monad of the script *)

Record world := World {
  session : session_state;
  disk : storage;
  log : list event;
}.

(** An execution stops early on [st.rerun()] and on an uncaught exception;
    what it did to the world before stays done. *)
Inductive outcome (A : Type) :=
| Value (a : A)
| Rerun
| Raised (e : exn).
Arguments Value {A} a.
Arguments Rerun {A}.
Arguments Raised {A} e.

Definition M (A : Type) : Type := world → outcome A * world.

#[global] Instance M_ret : MRet M := λ A a w, (Value a, w).

#[global] Instance M_bind : MBind M := λ A B k m w,
  match m w with
  | (Value a, w') => k a w'
  | (Rerun, w') => (Rerun, w')
  | (Raised e, w') => (Raised e, w')
  end.

Definition add_log (l : list event) (w : world) : world :=
  {| session := session w; disk := disk w; log := log w ++ l |}.

Definition emit (e : event) : M unit := λ w, (Value (), add_log [e] w).

Definition show (e : element) : M unit := emit (Shown e).

Definition get_session : M session_state := λ w, (Value (session w), w).

Definition modify (f : session_state → session_state) : M unit := λ w,
  (Value (), {| session := f (session w); disk := disk w; log := log w |}).

Definition raise {A : Type} (e : exn) : M A := λ w, (Raised e, w).

(** [st.rerun()] *)
Definition rerun {A : Type} : M A := λ w, (Rerun, w).

Definition when (b : bool) (m : M unit) : M unit :=
  if b then m else mret ().

(** [for idx, x in enumerate(l)], counting from [idx]. *)
Fixpoint for_each_from {A : Type} (idx : nat) (l : list A)
    (body : nat → A → M unit) : M unit :=
  match l with
  | [] => mret ()
  | x :: rest => body idx x ;; for_each_from (S idx) rest body
  end.

(** [l[i]] *)
Definition item {A : Type} (l : list A) (i : nat) : M A :=
  match l !! i with
  | Some x => mret x
  | None => raise IndexError
  end.

(** Lines 23-27. *)
Definition load_data : M (gmap string candidate_record) := λ w,
  match load_from (disk w) with
  | inr data => (Value data, w)
  | inl e => (Raised e, w)
  end.

(** Lines 30-32. *)
Definition save_data (data : gmap string candidate_record) : M unit := λ w,
  match dump_to data (disk w) with
  | inr d => (Value (), {| session := session w; disk := d; log := log w |})
  | inl (e, d) =>
      (Raised e, {| session := session w; disk := d; log := log w |})
  end.

(** ** The script *)

Section Script.

Variable sv : services.

(** Lines 61-68. *)
Definition translate_text (text target_lang : string) : M string :=
  if decide (target_lang = "en") then mret text
  else
    emit (Called_translate text target_lang) ;;
    match translate sv text target_lang with
    | Some translated => mret translated
    | None => mret text
    end.

(** [translate_text(text, st.session_state.preferred_language)] *)
Definition localized (text : string) : M string :=
  s ← get_session; translate_text text (preferred_language s).

(** Lines 71-79. *)
Definition analyze_sentiment (text : string) : M sentiment_label :=
  emit (Called_polarity text) ;;
  let p := polarity sv text in
  mret (if negb (Qle_bool p 0) then Positive
        else if negb (Qle_bool 0 p) then Negative
        else Neutral).

Definition prompt_for (tech : string) : string :=
  "Generate 5 interview questions for a candidate skilled in "
    +:+ tech +:+ ".".

(** Lines 88-95. *)
Definition generate_questions (tech : string) : M (list string) :=
  if negb (validate_tech_stack tech) then
    m ← localized "Please enter a valid tech stack!"; mret [m]
  else
    let prompt := prompt_for tech in
    emit (Called_invoke prompt) ;;
    response ← match invoke sv prompt with
               | Some r => mret r
               | None => raise ServiceError
               end;
    let qs :=
      List.map PyStr.strip
        (List.filter (λ q, PyStr.truthy (PyStr.strip q))
           (PyStr.split_lines response)) in
    if nonempty qs then mret (firstn 5 qs)
    else m ← localized "Unable to generate questions."; mret [m].

Variable wd : widgets.

(** Lines 99-109: the form is drawn. *)
Definition candidate_info_form : M unit :=
  l ← localized "Candidate Information"; show (subheader l) ;;
  l ← localized "Full Name"; show (text_input l) ;;
  l ← localized "Email"; show (text_input l) ;;
  l ← localized "Phone Number"; show (text_input l) ;;
  l ← localized "Years of Experience"; show (number_box l) ;;
  l ← localized "Desired Position"; show (text_input l) ;;
  l ← localized "Current Location"; show (text_input l) ;;
  l ← localized "Tech Stack (e.g., Python, TensorFlow, PostgreSQL)";
  show (text_box l) ;;
  l ← localized "Proceed to Interview"; show (form_submit_button l).

(** Lines 115-123. *)
Definition entered_profile : profile :=
  {| info_name := full_name wd;
     info_email := email wd;
     info_phone := phone wd;
     info_experience := number_input 0 50 (experience wd);
     info_position := position wd;
     info_location := location wd;
     info_tech_stack := tech_stack wd |}.

(** Lines 112-130: the form was submitted. *)
Definition on_submit_info : M unit :=
  if negb (PyStr.truthy (full_name wd)) || negb (PyStr.truthy (email wd))
     || negb (PyStr.truthy (phone wd)) || negb (PyStr.truthy (tech_stack wd))
  then
    m ← localized "Please fill in all required fields."; show (warning m)
  else
    modify (set_candidate_info (Some entered_profile)) ;;
    qs ← generate_questions (tech_stack wd);
    modify (set_questions qs) ;;
    modify (set_question_index 0) ;;
    modify (set_conversation []) ;;
    modify (set_interview_started true) ;;
    modify (set_current_answer "") ;;
    m ← localized ("Thank you, " +:+ full_name wd
                   +:+ "! Let's start your interview.");
    show (success m) ;;
    rerun.

(** Lines 98-130. *)
Definition gather_candidate_info : M unit :=
  candidate_info_form ;;
  when (submit_info wd) on_submit_info.

(** Lines 151-164: the submit button was pressed. *)
Definition on_submit_answer (index : nat) : M unit :=
  s ← get_session;
  if negb (PyStr.truthy (PyStr.strip (current_answer s))) then
    m ← localized "Please enter a valid answer before proceeding.";
    show (warning m)
  else
    translated_answer ← translate_text (current_answer s) "en";
    sentiment ← analyze_sentiment translated_answer;
    s ← get_session;
    q ← item (questions s) index;
    modify (λ s, set_conversation
                   (conversation s ++ [Exchange q translated_answer sentiment]) s) ;;
    modify (λ s, set_question_index (question_index s + 1) s) ;;
    modify (set_current_answer "") ;;
    rerun.

(** Lines 137-164: one question is asked. *)
Definition ask_question (index : nat) : M unit :=
  s ← get_session;
  q ← item (questions s) index;
  question ← localized q;
  l ← localized "Question";
  show (subheader (l +:+ " " +:+ pretty (index + 1) +:+ " of "
                     +:+ pretty (length (questions s)) +:+ ":")) ;;
  show (write question) ;;
  l ← localized "Your Answer:";
  s ← get_session;
  show (text_box l) ;;
  modify (set_current_answer (text_area (typed_answer wd) (current_answer s))) ;;
  l ← localized "Submit Answer";
  show (button l) ;;
  when (submit_answer wd) (on_submit_answer index).

(** Lines 167-174: the record is written under the candidate's email. *)
Definition save_interview : M unit :=
  candidate_data ← load_data;
  s ← get_session;
  p ← match candidate_info s with
      | Some p => mret p
      | None => raise KeyError
      end;
  let candidate_id := info_email p in
  save_data (<[candidate_id :=
                 {| info := p;
                    interview := conversation s;
                    completed_date := "March 16, 2025" |}]> candidate_data).

(** Lines 176-183. *)
Definition show_responses : M unit :=
  m ← localized "Interview completed! Your responses have been saved. We will contact you for further steps.";
  show (success m) ;;
  m ← localized "Your Responses:";
  show (subheader m) ;;
  s ← get_session;
  for_each_from 0 (conversation s) (λ idx qa,
    q ← localized (question qa);
    show (write ("**Q" +:+ pretty (idx + 1) +:+ ":** " +:+ q)) ;;
    a ← localized (answer qa);
    show (write ("**A" +:+ pretty (idx + 1) +:+ ":** " +:+ a)) ;;
    show (write ("**Sentiment:** " +:+ label_text (sentiment qa))) ;;
    show (write "---")).

(** Lines 186-193. *)
Definition restart_option : M unit :=
  l ← localized "Start New Interview";
  show (button l) ;;
  when (start_new wd)
    (modify (set_interview_started false) ;;
     modify (set_conversation []) ;;
     modify (set_questions []) ;;
     modify (set_question_index 0) ;;
     modify (set_candidate_info None) ;;
     modify (set_current_answer "") ;;
     rerun).

(** Lines 166-193: the interview is over. *)
Definition complete_interview : M unit :=
  save_interview ;;
  show_responses ;;
  restart_option.

(** Lines 133-193. *)
Definition interview_process : M unit :=
  s ← get_session;
  when (interview_started s && nonempty (questions s))
    (let index := question_index s in
     if index <? length (questions s) then ask_question index
     else complete_interview).

(** Lines 198-207.  The saved candidates are listed in the order of the
    map's keys. *)
Definition saved_candidates (candidate_data : gmap string candidate_record)
  : M unit :=
  if nonempty (map_to_list candidate_data) then
    m ← localized "Saved Candidate Data:";
    show (subheader m) ;;
    for_each_from 0 (map_to_list candidate_data) (λ _ entry,
      show (write ("**Candidate:** " +:+ info_name (info entry.2)
                     +:+ " (" +:+ entry.1 +:+ ")")) ;;
      show (write ("**Position:** " +:+ info_position (info entry.2))) ;;
      show (write ("**Tech Stack:** " +:+ info_tech_stack (info entry.2))) ;;
      show (write ("**Completed:** " +:+ completed_date entry.2)) ;;
      show (write "---"))
  else
    m ← localized "No candidate data available yet.";
    show (write m).

(** Lines 196-207. *)
Definition admin_view : M unit :=
  l ← localized "Show all saved candidates (Admin View)";
  show (checkbox l) ;;
  when (show_admin wd)
    (candidate_data ← load_data; saved_candidates candidate_data).

(** Lines 35-58. *)
Definition page_top : M unit :=
  show (title "TalentScout - AI Hiring Assistant") ;;
  show (write "Welcome! I'll help screen candidates based on their tech stack.") ;;
  show (selectbox "Select your preferred language:") ;;
  modify (set_preferred_language (lang_options (selected_lang wd))).

(** One execution of [app.py]. *)
Definition script : M unit :=
  page_top ;;
  s ← get_session;
  when (negb (interview_started s)) gather_candidate_info ;;
  interview_process ;;
  admin_view.

End Script.

(** The widgets on the execution that [st.rerun()] starts: no button is
    pressed and no box is edited; the selections stay. *)
Definition released (wd : widgets) : widgets :=
  {| selected_lang := selected_lang wd;
     full_name := full_name wd; email := email wd; phone := phone wd;
     experience := experience wd; position := position wd;
     location := location wd; tech_stack := tech_stack wd;
     submit_info := false;
     typed_answer := None;
     submit_answer := false;
     start_new := false;
     show_admin := show_admin wd |}.

(** One interaction of the user: the script is executed, and executed once
    more when it asked for a rerun. *)
Definition interaction (sv : services) (wd : widgets) (w : world)
  : outcome unit * world :=
  match script sv wd w with
  | (Rerun, w') => script sv (released wd) w'
  | r => r
  end.

(** A browser session: interactions one after the other, each with the
    services as they answer at that time. *)
Fixpoint browse (inputs : list (services * widgets)) (w : world) : world :=
  match inputs with
  | [] => w
  | (sv, wd) :: rest => browse rest (interaction sv wd w).2
  end.

(** The world when the page is first opened. *)
Definition fresh (d : storage) : world :=
  {| session := initial_session; disk := d; log := [] |}.

(** ** Phases of a session *)

Inductive phase := INTAKE | INTERVIEWING | COMPLETE.

(** Which part of the script a session state selects (the tests of lines 98,
    133 and 136); none when the interview is started without questions. *)
Definition phase_of (s : session_state) : option phase :=
  if negb (interview_started s) then Some INTAKE
  else if nonempty (questions s) then
         if question_index s <? length (questions s) then Some INTERVIEWING
         else Some COMPLETE
       else None.

(** ** Reasoning about the script *)

(** [wp m Q w]: executing [m] in the world [w] ends, by whatever outcome,
    in a world that satisfies [Q]. *)
Definition wp {A : Type} (m : M A) (Q : outcome A → world → Prop) (w : world)
  : Prop :=
  Q (m w).1 (m w).2.

(** The continuation of a bind: aborts skip the rest. *)
Definition after {A B : Type} (k : A → M B) (Q : outcome B → world → Prop)
  : outcome A → world → Prop :=
  λ r w,
    match r with
    | Value a => wp (k a) Q w
    | Rerun => Q Rerun w
    | Raised e => Q (Raised e) w
    end.

(** A computation that only shows elements and calls services: it returns,
    and changes nothing but the log. *)
Definition logs_only {A : Type} (m : M A) : Prop :=
  ∀ w, ∃ a l, m w = (Value a, add_log l w).

(** A computation that leaves session and storage alone and does not ask
    for a rerun. *)
Definition quiet {A : Type} (m : M A) : Prop :=
  ∀ w, ∃ r l, m w = (r, add_log l w) ∧ r ≠ Rerun.

(** What [translate_text] returns, and the calls it makes. *)
Definition translated (sv : services) (text target_lang : string) : string :=
  if decide (target_lang = "en") then text
  else default text (translate sv text target_lang).

Definition translator_calls (text target_lang : string) : list event :=
  if decide (target_lang = "en") then []
  else [Called_translate text target_lang].

(** The usable lines of a response, in the words of the specification:
    split on line breaks, trim, discard the blank ones. *)
Definition usable_lines (response : string) : list string :=
  List.filter PyStr.truthy (List.map PyStr.strip (PyStr.split_lines response)).

(** Years of experience within the bounds of the form. *)
Definition experience_ok (p : profile) : Prop :=
  (0 ≤ info_experience p ≤ 50)%Z.

(** The invariant of a session, for a property [E] of profiles. *)
Record session_ok (E : profile → Prop) (s : session_state) : Prop := SessionOk {
  ok_answers : length (conversation s) = question_index s;
  ok_index : question_index s ≤ length (questions s);
  ok_idle : interview_started s = false → questions s = [];
  ok_started : interview_started s = true → questions s ≠ [];
  ok_profile : ∀ p, candidate_info s = Some p → E p;
}.

(** Every record of a readable store has a profile with the property. *)
Definition store_ok (E : profile → Prop) (d : storage) : Prop :=
  ∀ data key r,
    load_from d = inr data → data !! key = Some r → E (info r).

Definition world_ok (E : profile → Prop) (w : world) : Prop :=
  session_ok E (session w) ∧ store_ok E (disk w).

(** The world once the top of the page is drawn (lines 35-58). *)
Definition top_of_page : list event :=
  [Shown (title "TalentScout - AI Hiring Assistant");
   Shown (write "Welcome! I'll help screen candidates based on their tech stack.");
   Shown (selectbox "Select your preferred language:")].

Definition opened (wd : widgets) (w : world) : world :=
  {| session := set_preferred_language (lang_options (selected_lang wd)) (session w);
     disk := disk w;
     log := log w ++ top_of_page |}.

(** The record that completing the interview writes. *)
Definition record_of (p : profile) (s : session_state) : candidate_record :=
  {| info := p; interview := conversation s;
     completed_date := "March 16, 2025" |}.

(** The session after "Start New Interview" (lines 187-192). *)
Definition restarted (s : session_state) : session_state :=
  {| conversation := []; question_index := 0; questions := [];
     candidate_info := None;
     preferred_language := preferred_language s;
     interview_started := false; current_answer := "" |}.

(** The session after a question is answered (lines 157-163). *)
Definition answered (q text : string) (label : sentiment_label)
    (s : session_state) : session_state :=
  {| conversation := conversation s ++ [Exchange q text label];
     question_index := question_index s + 1;
     questions := questions s;
     candidate_info := candidate_info s;
     preferred_language := preferred_language s;
     interview_started := interview_started s;
     current_answer := "" |}.

(** The message of line 152. *)
Definition blank_answer_prompt : string :=
  "Please enter a valid answer before proceeding.".

(** The sentinel of line 90, in the display language of the form. *)
Definition sentinel (sv : services) (wd : widgets) : string :=
  translated sv "Please enter a valid tech stack!"
    (lang_options (selected_lang wd)).

(** The session that the form starts when the tech stack fails validation
    (lines 90 and 115-128). *)
Definition sentinel_session (sv : services) (wd : widgets) : session_state :=
  {| conversation := [];
     question_index := 0;
     questions := [sentinel sv wd];
     candidate_info := Some (entered_profile wd);
     preferred_language := lang_options (selected_lang wd);
     interview_started := true;
     current_answer := "" |}.

(** What [save_interview] does to the store, or the exception it raises
    with the store that it leaves. *)
Definition save_result (s : session_state) (d : storage)
  : exn * storage + storage :=
  match load_from d with
  | inl e => inl (e, d)
  | inr data =>
      match candidate_info s with
      | None => inl (KeyError, d)
      | Some p => dump_to (<[info_email p := record_of p s]> data) d
      end
  end.

(** Two sessions that differ at most in the display language and in the
    text of the answer box. *)
Definition same_interview (s s' : session_state) : Prop :=
  conversation s' = conversation s
  ∧ question_index s' = question_index s
  ∧ questions s' = questions s
  ∧ candidate_info s' = candidate_info s
  ∧ interview_started s' = interview_started s.

(** ** Concrete inputs *)

(** A deployment used to run the script on examples: the translator knows
    Telugu only and fails otherwise, the generator answers with two
    questions among blank lines, every text scores as neutral. *)
Module Demo.

Definition line_feed : string := String PyStr.newline "".

Definition online : services :=
  {| translate := λ text dest,
       if decide (dest = "te") then Some ("[te] " +:+ text) else None;
     invoke := λ _,
       Some ("1. What is a list?" +:+ line_feed +:+ line_feed
             +:+ "   2. What is a join?  " +:+ line_feed);
     polarity := λ _, 0%Q |}.

(** No translation service at all. *)
Definition offline : services :=
  {| translate := λ _ _, None;
     invoke := λ _, None;
     polarity := λ _, 0%Q |}.

Definition no_file : storage :=
  {| data_file := None; writable := true; cut_short := None |}.

(** The form, filled in and submitted. *)
Definition form (lang : language) (years : Z) (stack : string) : widgets :=
  {| selected_lang := lang;
     full_name := "Alice"; email := "a@x.com"; phone := "123";
     experience := years; position := "Developer"; location := "Pune";
     tech_stack := stack;
     submit_info := true;
     typed_answer := None; submit_answer := false;
     start_new := false; show_admin := false |}.

(** An answer, typed and submitted. *)
Definition reply (lang : language) (text : string) : widgets :=
  {| selected_lang := lang;
     full_name := ""; email := ""; phone := "";
     experience := 0; position := ""; location := ""; tech_stack := "";
     submit_info := false;
     typed_answer := Some text; submit_answer := true;
     start_new := false; show_admin := false |}.

(** A candidate in the middle of an interview shown in Telugu, with only
    blanks in the answer box. *)
Definition blank_session : session_state :=
  {| conversation := [];
     question_index := 0;
     questions := ["1. What is a list?"; "2. What is a join?"];
     candidate_info := Some (entered_profile (form Telugu 3 "Python, SQL"));
     preferred_language := "te";
     interview_started := true;
     current_answer := "   " |}.

Definition blank_world : world :=
  {| session := blank_session; disk := no_file; log := [] |}.

(** The same candidate with both questions answered. *)
Definition done_session : session_state :=
  {| conversation :=
       [Exchange "1. What is a list?" "A sequence." Neutral;
        Exchange "2. What is a join?" "A combination of tables." Neutral];
     question_index := 2;
     questions := ["1. What is a list?"; "2. What is a join?"];
     candidate_info := Some (entered_profile (form Telugu 3 "Python, SQL"));
     preferred_language := "te";
     interview_started := true;
     current_answer := "" |}.

Definition done_world : world :=
  {| session := done_session; disk := no_file; log := [] |}.

End Demo.

(** ** Further notions *)

(** The label of a polarity (lines 74-79). *)
Definition label_of (p : Q) : sentiment_label :=
  if negb (Qle_bool p 0) then Positive
  else if negb (Qle_bool 0 p) then Negative
  else Neutral.

(** The message of line 113. *)
Definition missing_fields_prompt : string :=
  "Please fill in all required fields.".

(** The message of line 207. *)
Definition no_candidates_message : string :=
  "No candidate data available yet.".

(** The label of line 196. *)
Definition admin_label : string := "Show all saved candidates (Admin View)".

(** The four fields that line 112 requires. *)
Definition required_ok (p : profile) : Prop :=
  PyStr.truthy (info_name p) = true ∧ PyStr.truthy (info_email p) = true
  ∧ PyStr.truthy (info_phone p) = true
  ∧ PyStr.truthy (info_tech_stack p) = true.

(** A started interview has a profile with its required fields. *)
Definition profile_inv (s : session_state) : Prop :=
  interview_started s = true →
  ∃ p, candidate_info s = Some p ∧ required_ok p.

(** The characters of a string. *)
Definition chars (s : string) : list ascii := list_ascii_of_string s.

(** Leading blanks dropped, on lists of characters. *)
Fixpoint skip_spaces (l : list ascii) : list ascii :=
  match l with
  | [] => []
  | c :: t => if PyStr.isspace c then skip_spaces t else l
  end.

(** Only blanks. *)
Definition all_space (s : string) : Prop :=
  Forall (λ c, PyStr.isspace c = true) (chars s).

(** A string as [strip] leaves it: not empty, no blank at either end. *)
Definition trimmed (s : string) : Prop :=
  s ≠ "" ∧ PyStr.strip s = s.

(** Interactions that each submit one answer that is not blank. *)
Definition answers_with (inputs : list (services * widgets))
    (texts : list string) : Prop :=
  Forall2 (λ (i : services * widgets) (text : string),
             submit_answer i.2 = true ∧ typed_answer i.2 = Some text
             ∧ PyStr.truthy (PyStr.strip text) = true)
          inputs texts.

(** The five lines the admin view writes for one saved candidate
    (lines 201-205). *)
Definition candidate_lines (entry : string * candidate_record) : list event :=
  [Shown (write ("**Candidate:** " +:+ info_name (info entry.2)
                   +:+ " (" +:+ entry.1 +:+ ")"));
   Shown (write ("**Position:** " +:+ info_position (info entry.2)));
   Shown (write ("**Tech Stack:** " +:+ info_tech_stack (info entry.2)));
   Shown (write ("**Completed:** " +:+ completed_date entry.2));
   Shown (write "---")].

(** What drawing the checkbox of the admin view logs (line 196). *)
Definition admin_box (sv : services) (lang : string) : list event :=
  translator_calls admin_label lang
    ++ [Shown (checkbox (translated sv admin_label lang))].

(** The questions made of a response (line 94-95), in the display
    language [lang] for the fallback. *)
Definition generated (sv : services) (lang response : string) : list string :=
  if nonempty (usable_lines response) then firstn 5 (usable_lines response)
  else [translated sv "Unable to generate questions." lang].

(** The session that a submitted form starts with the questions [qs]
    (lines 115-128). *)
Definition started_session (wd : widgets) (qs : list string) : session_state :=
  {| conversation := [];
     question_index := 0;
     questions := qs;
     candidate_info := Some (entered_profile wd);
     preferred_language := lang_options (selected_lang wd);
     interview_started := true;
     current_answer := "" |}.

(** The three kinds of calls to the services. *)
Definition is_translate (e : event) : Prop :=
  match e with Called_translate _ _ => True | _ => False end.

Definition is_invoke (e : event) : Prop :=
  match e with Called_invoke _ => True | _ => False end.

Definition is_polarity (e : event) : Prop :=
  match e with Called_polarity _ => True | _ => False end.

(** From the world [w] to the world [w'] the log has grown by events that
    are not of the kind [F]. *)
Definition clean (F : event → Prop) (w w' : world) : Prop :=
  ∃ l, log w' = log w ++ l ∧ Forall (λ e, ¬ F e) l.

(** Translating into [lang] makes no call of the kind [F]. *)
Definition lang_ok (F : event → Prop) (lang : string) : Prop :=
  ∀ text, Forall (λ e, ¬ F e) (translator_calls text lang).

(** A computation that returns and only logs, nothing of the kind [F],
    when the display language is fine. *)
Definition tame {A : Type} (F : event → Prop) (m : M A) : Prop :=
  ∀ w, lang_ok F (preferred_language (session w)) →
       ∃ a l, m w = (Value a, add_log l w) ∧ Forall (λ e, ¬ F e) l.

(** The same for a computation that may raise. *)
Definition mild {A : Type} (F : event → Prop) (m : M A) : Prop :=
  ∀ w, lang_ok F (preferred_language (session w)) →
       ∃ r l, m w = (r, add_log l w) ∧ r ≠ Rerun ∧ Forall (λ e, ¬ F e) l.

(** The test of line 112 and the validation of line 89 both pass. *)
Definition generates (wd : widgets) : bool :=
  PyStr.truthy (full_name wd) && PyStr.truthy (email wd)
  && PyStr.truthy (phone wd) && PyStr.truthy (tech_stack wd)
  && validate_tech_stack (tech_stack wd).

(** More concrete inputs. *)
Module Sample.

(** A store whose file is not JSON. *)
Definition broken : storage :=
  {| data_file := Some (Malformed "{"); writable := true; cut_short := None |}.

(** A store that cannot be written: the open is refused. *)
Definition read_only : storage :=
  {| data_file := None; writable := false; cut_short := None |}.

(** A store with one candidate, Bob. *)
Definition bob : candidate_record :=
  {| info := {| info_name := "Bob"; info_email := "b@x.com";
                info_phone := "456"; info_experience := 7;
                info_position := "Analyst"; info_location := "Delhi";
                info_tech_stack := "SQL" |};
     interview := [];
     completed_date := "March 16, 2025" |}.

Definition with_bob : storage :=
  {| data_file := Some (Document {[ "b@x.com" := bob ]});
     writable := true; cut_short := None |}.

(** Bob's store in a directory that the process cannot search: the file
    is there, but it can be neither found nor opened. *)
Definition hidden : storage :=
  {| data_file := Some Unseen; writable := false; cut_short := None |}.

(** Bob's store on a disk with no room left: the file is opened, and the
    write stops after the first brace. *)
Definition full : storage :=
  {| data_file := Some (Document {[ "b@x.com" := bob ]});
     writable := false; cut_short := Some "{" |}.

(** The form with no email. *)
Definition no_email : widgets :=
  {| selected_lang := Telugu;
     full_name := "Alice"; email := ""; phone := "123";
     experience := 3; position := ""; location := "";
     tech_stack := "Python";
     submit_info := true;
     typed_answer := None; submit_answer := false;
     start_new := false; show_admin := false |}.

(** The restart button, pressed. *)
Definition restart : widgets :=
  {| selected_lang := Hindi;
     full_name := ""; email := ""; phone := "";
     experience := 0; position := ""; location := ""; tech_stack := "";
     submit_info := false;
     typed_answer := None; submit_answer := false;
     start_new := true; show_admin := false |}.

(** The admin view, ticked. *)
Definition admin : widgets :=
  {| selected_lang := English;
     full_name := ""; email := ""; phone := "";
     experience := 0; position := ""; location := ""; tech_stack := "";
     submit_info := false;
     typed_answer := None; submit_answer := false;
     start_new := false; show_admin := true |}.

(** The candidate of [Demo.blank_session] with an answer in the box. *)
Definition typing_world : world :=
  {| session := set_current_answer "  A sequence. " Demo.blank_session;
     disk := with_bob; log := [] |}.

End Sample.

(** * Properties *)

(** ** Strings *)

Section StringFacts.

Lemma startswith_spec (p s : string) :
  PyStr.startswith p s = true ↔ ∃ rest, s = p +:+ rest.
Proof.
  revert s. induction p as [|a p IH]; intros s; simpl.
  - split; [intros _; by exists s | done].
  - destruct s as [|b s].
    + split; [done | intros [rest H]; discriminate H].
    + destruct (ascii_dec a b) as [->|Hne].
      * rewrite IH. split; intros [rest H]; exists rest.
        -- by rewrite H.
        -- by injection H.
      * split; [done | intros [rest H]; injection H; congruence].
Qed.

Lemma contains_spec (sub s : string) :
  PyStr.contains sub s = true ↔ PyStr.occurs_in sub s.
Proof.
  induction s as [|c s IH].
  - simpl. rewrite orb_false_r, startswith_spec. split.
    + intros [rest H]. by exists EmptyString, rest.
    + intros [[|b before] [after H]].
      * by exists after.
      * discriminate H.
  - cbn [PyStr.contains]. rewrite orb_true_iff, startswith_spec, IH. split.
    + intros [[rest H] | [before [after H]]].
      * by exists EmptyString, rest.
      * exists (String c before), after. by rewrite H.
    + intros [[|b before] [after H]].
      * left. by exists after.
      * right. exists before, after. by injection H.
Qed.

(** Filtering on the trimmed line and then trimming, as the source does,
    keeps the usable lines. *)
Lemma strip_filter_usable (lines : list string) :
  List.map PyStr.strip
    (List.filter (λ q, PyStr.truthy (PyStr.strip q)) lines)
  = List.filter PyStr.truthy (List.map PyStr.strip lines).
Proof.
  induction lines as [|q lines IH]; [done|].
  simpl. destruct (PyStr.truthy (PyStr.strip q)); simpl; by rewrite IH.
Qed.

End StringFacts.

(** C6. [validate_tech_stack] is a total boolean function of the text alone;
    it answers true exactly when the lowercased text has an occurrence of one
    of the eight keywords; it rejects "I cook pasta" and accepts
    "I use Python and React". *)
Theorem validate_tech_stack_spec :
  (∀ stack : string,
      validate_tech_stack stack = true ↔
      ∃ tech, In tech valid_tech_keywords ∧
              PyStr.occurs_in tech (PyStr.lower stack))
  ∧ validate_tech_stack "I cook pasta" = false
  ∧ validate_tech_stack "I use Python and React" = true.
Proof.
  split; [|split; reflexivity].
  intros stack. unfold validate_tech_stack.
  rewrite existsb_exists.
  split; intros [tech [Hin H]]; exists tech; split; try done;
    by apply contains_spec.
Qed.

(** ** Rules of the monad *)

Section Rules.

Context {A B : Type}.
Implicit Types (Q : outcome B → world → Prop) (w : world).

Lemma wp_bind (m : M A) (k : A → M B) Q w :
  wp m (after k Q) w → wp (m ≫= k) Q w.
Proof.
  unfold wp, after, mbind, M_bind.
  destruct (m w) as [[a| |e] w']; by simpl.
Qed.

Lemma wp_ret (b : B) Q w : Q (Value b) w → wp (mret b) Q w.
Proof. done. Qed.

Lemma wp_raise (e : exn) Q w : Q (Raised e) w → wp (raise e) Q w.
Proof. done. Qed.

Lemma wp_rerun Q w : Q Rerun w → wp rerun Q w.
Proof. done. Qed.

Lemma wp_logs_only (m : M B) Q w :
  logs_only m → (∀ b l, Q (Value b) (add_log l w)) → wp m Q w.
Proof. intros Hm HQ. unfold wp. destruct (Hm w) as (b & l & ->). apply HQ. Qed.

Lemma wp_quiet (m : M B) Q w :
  quiet m → (∀ r l, r ≠ Rerun → Q r (add_log l w)) → wp m Q w.
Proof.
  intros Hm HQ. unfold wp. destruct (Hm w) as (r & l & -> & Hr). by apply HQ.
Qed.

End Rules.

Section UnitRules.

Implicit Types (Q : outcome () → world → Prop) (w : world).

Lemma wp_emit (e : event) Q w : Q (Value ()) (add_log [e] w) → wp (emit e) Q w.
Proof. done. Qed.

Lemma wp_show (e : element) Q w :
  Q (Value ()) (add_log [Shown e] w) → wp (show e) Q w.
Proof. done. Qed.

Lemma wp_modify (f : session_state → session_state) Q w :
  Q (Value ()) {| session := f (session w); disk := disk w; log := log w |} →
  wp (modify f) Q w.
Proof. done. Qed.

Lemma wp_get_session (Q : outcome session_state → world → Prop) w :
  Q (Value (session w)) w → wp get_session Q w.
Proof. done. Qed.

End UnitRules.

(** ** The adapters *)

Section Adapters.

Variable sv : services.

Lemma translate_text_run (text target_lang : string) (w : world) :
  translate_text sv text target_lang w
  = (Value (translated sv text target_lang),
     add_log (translator_calls text target_lang) w).
Proof.
  unfold translate_text, translated, translator_calls.
  destruct (decide (target_lang = "en")).
  - destruct w. unfold add_log. simpl. by rewrite app_nil_r.
  - unfold mbind, M_bind, emit. simpl.
    by destruct (translate sv text target_lang).
Qed.

Lemma localized_run (text : string) (w : world) :
  localized sv text w
  = (Value (translated sv text (preferred_language (session w))),
     add_log (translator_calls text (preferred_language (session w))) w).
Proof.
  unfold localized, mbind, M_bind, get_session. apply translate_text_run.
Qed.

Lemma wp_translate_text (text target_lang : string)
    (Q : outcome string → world → Prop) (w : world) :
  Q (Value (translated sv text target_lang))
    (add_log (translator_calls text target_lang) w) →
  wp (translate_text sv text target_lang) Q w.
Proof. unfold wp. by rewrite translate_text_run. Qed.

Lemma wp_localized (text : string) (Q : outcome string → world → Prop)
    (w : world) :
  Q (Value (translated sv text (preferred_language (session w))))
    (add_log (translator_calls text (preferred_language (session w))) w) →
  wp (localized sv text) Q w.
Proof. unfold wp. by rewrite localized_run. Qed.

Lemma page_top_run (wd : widgets) (w : world) :
  page_top wd w = (Value (), opened wd w).
Proof.
  unfold page_top, opened, mbind, M_bind, show, emit, modify, top_of_page.
  simpl. by rewrite <- !app_assoc.
Qed.

Lemma wp_page_top (wd : widgets) (Q : outcome () → world → Prop) (w : world) :
  Q (Value ()) (opened wd w) → wp (page_top wd) Q w.
Proof. unfold wp. by rewrite page_top_run. Qed.

Lemma wp_analyze_sentiment (text : string)
    (Q : outcome sentiment_label → world → Prop) (w : world) :
  (∀ label, Q (Value label) (add_log [Called_polarity text] w)) →
  wp (analyze_sentiment sv text) Q w.
Proof. intros HQ. unfold wp, analyze_sentiment, mbind, M_bind, emit. simpl. apply HQ. Qed.

End Adapters.

(** ** Computations that only log *)

Section LogsOnly.

Lemma add_log_add_log (l1 l2 : list event) (w : world) :
  add_log l2 (add_log l1 w) = add_log (l1 ++ l2) w.
Proof. unfold add_log. simpl. by rewrite app_assoc. Qed.

Lemma logs_only_ret {A} (a : A) : logs_only (mret a).
Proof.
  intros w. exists a, []. destruct w. unfold add_log. simpl.
  by rewrite app_nil_r.
Qed.

Lemma logs_only_bind {A B} (m : M A) (k : A → M B) :
  logs_only m → (∀ a, logs_only (k a)) → logs_only (m ≫= k).
Proof.
  intros Hm Hk w. unfold mbind, M_bind.
  destruct (Hm w) as (a & l1 & ->).
  destruct (Hk a (add_log l1 w)) as (b & l2 & ->).
  exists b, (l1 ++ l2). by rewrite add_log_add_log.
Qed.

Lemma logs_only_show (e : element) : logs_only (show e).
Proof. intros w. by exists (), [Shown e]. Qed.

Lemma logs_only_get_session : logs_only get_session.
Proof.
  intros w. exists (session w), []. destruct w. unfold add_log. simpl.
  by rewrite app_nil_r.
Qed.

Lemma logs_only_translate_text sv (text target_lang : string) :
  logs_only (translate_text sv text target_lang).
Proof. intros w. rewrite translate_text_run. eauto. Qed.

Lemma logs_only_localized sv (text : string) : logs_only (localized sv text).
Proof. intros w. rewrite localized_run. eauto. Qed.

Lemma logs_only_for_each {A} (body : nat → A → M unit) (l : list A) :
  (∀ idx x, logs_only (body idx x)) →
  ∀ idx, logs_only (for_each_from idx l body).
Proof.
  intros Hbody. induction l as [|x l IH]; intros idx; simpl.
  - apply logs_only_ret.
  - apply logs_only_bind; [apply Hbody | intros _; apply IH].
Qed.

Lemma logs_only_quiet {A} (m : M A) : logs_only m → quiet m.
Proof. intros Hm w. destruct (Hm w) as (a & l & ->). by exists (Value a), l. Qed.

Lemma quiet_bind {A B} (m : M A) (k : A → M B) :
  quiet m → (∀ a, quiet (k a)) → quiet (m ≫= k).
Proof.
  intros Hm Hk w. unfold mbind, M_bind.
  destruct (Hm w) as (r & l1 & -> & Hr).
  destruct r as [a| |e]; [|done|by exists (Raised e), l1].
  destruct (Hk a (add_log l1 w)) as (r & l2 & -> & Hr').
  exists r, (l1 ++ l2). by rewrite add_log_add_log.
Qed.

Lemma quiet_load_data : quiet load_data.
Proof.
  intros w. unfold load_data.
  destruct (load_from (disk w)) as [e|data].
  - exists (Raised e), []. destruct w. unfold add_log. simpl.
    by rewrite app_nil_r.
  - exists (Value data), []. destruct w. unfold add_log. simpl.
    by rewrite app_nil_r.
Qed.

End LogsOnly.

Create HintDb logs.

#[local] Hint Resolve logs_only_ret logs_only_show logs_only_localized
  logs_only_get_session logs_only_translate_text : logs.

Ltac logs_only_steps :=
  repeat first
    [ solve [auto with logs]
    | apply logs_only_for_each; intros ? ?
    | apply logs_only_bind; [|intros ?] ].

Section Blocks.

Variables (sv : services) (wd : widgets).

Lemma candidate_info_form_logs : logs_only (candidate_info_form sv).
Proof. unfold candidate_info_form. logs_only_steps. Qed.

Lemma show_responses_logs : logs_only (show_responses sv).
Proof.
  unfold show_responses.
  logs_only_steps.
Qed.

Lemma saved_candidates_logs data : logs_only (saved_candidates sv data).
Proof.
  unfold saved_candidates.
  destruct (nonempty (map_to_list data)); logs_only_steps.
Qed.

Lemma admin_view_quiet : quiet (admin_view sv wd).
Proof.
  unfold admin_view.
  apply quiet_bind; [auto using logs_only_quiet with logs | intros l].
  apply quiet_bind; [auto using logs_only_quiet with logs | intros _].
  destruct (show_admin wd); cbn [when].
  - apply quiet_bind; [apply quiet_load_data | intros data].
    apply logs_only_quiet, saved_candidates_logs.
  - apply logs_only_quiet, logs_only_ret.
Qed.

End Blocks.

(** ** Stepping through the script *)

Section StorageRules.

Lemma wp_load_data (Q : outcome (gmap string candidate_record) → world → Prop)
    (w : world) :
  (∀ data, load_from (disk w) = inr data → Q (Value data) w) →
  (∀ e, load_from (disk w) = inl e → Q (Raised e) w) →
  wp load_data Q w.
Proof.
  intros Hok Herr. unfold wp, load_data.
  destruct (load_from (disk w)) as [e|data]; simpl; auto.
Qed.

Lemma wp_save_data (data : gmap string candidate_record)
    (Q : outcome () → world → Prop) (w : world) :
  (∀ d, dump_to data (disk w) = inr d →
        Q (Value ()) {| session := session w; disk := d; log := log w |}) →
  (∀ e d, dump_to data (disk w) = inl (e, d) →
          Q (Raised e) {| session := session w; disk := d; log := log w |}) →
  wp (save_data data) Q w.
Proof.
  intros Hok Herr. unfold wp, save_data.
  destruct (dump_to data (disk w)) as [[e d]|d]; simpl; auto.
Qed.

(** A file that could be loaded holds, once written, what was written. *)
Lemma load_from_put (f : file) (d : storage)
    (data0 : gmap string candidate_record) :
  load_from d = inr data0 →
  load_from (put f d)
  = match f with
    | Unreadable => inl OSError
    | Malformed _ => inl JSONDecodeError
    | Document data => inr data
    | Unseen => inr ∅
    end.
Proof. unfold load_from, put. by destruct (data_file d) as [[| | |]|]. Qed.

Lemma put_put (f : file) (d : storage) : put f (put f d) = put f d.
Proof. unfold put. by destruct (data_file d) as [[| | |]|], f. Qed.

Lemma dump_to_again (data data0 : gmap string candidate_record)
    (d d' : storage) :
  load_from d = inr data0 → dump_to data d = inr d' →
  load_from d' = inr data ∧ dump_to data d' = inr d'.
Proof.
  intros Hload. unfold dump_to.
  destruct (writable d) eqn:Hw; [|by destruct (cut_short d)].
  intros [= <-]. rewrite (load_from_put _ _ _ Hload). split; [done|].
  cbn [put writable]. by rewrite Hw, put_put.
Qed.

Lemma wp_mono {A} (m : M A) (Q Q' : outcome A → world → Prop) (w : world) :
  wp m Q w → (∀ r w', Q r w' → Q' r w') → wp m Q' w.
Proof. unfold wp. auto. Qed.

End StorageRules.

Ltac wp_simpl :=
  cbn [after add_log session disk log when
       conversation question_index questions candidate_info
       preferred_language interview_started current_answer
       set_conversation set_question_index set_questions set_candidate_info
       set_preferred_language set_interview_started set_current_answer].

(** One step of the script: the rule of the head construct. *)
Ltac wp_step :=
  lazymatch goal with
  | |- wp (mret _) _ _ => apply wp_ret
  | |- wp (raise _) _ _ => apply wp_raise
  | |- wp rerun _ _ => apply wp_rerun
  | |- wp (emit _) _ _ => apply wp_emit
  | |- wp (show _) _ _ => apply wp_show
  | |- wp (modify _) _ _ => apply wp_modify
  | |- wp get_session _ _ => apply wp_get_session
  | |- wp (translate_text _ _ _) _ _ => apply wp_translate_text
  | |- wp (localized _ _) _ _ => apply wp_localized
  | |- wp (page_top _) _ _ => apply wp_page_top
  | |- wp (analyze_sentiment _ _) _ _ => apply wp_analyze_sentiment; intros ?
  | |- wp (mbind _ _) _ _ => apply wp_bind
  end; wp_simpl.

Ltac wp_steps := wp_simpl; repeat wp_step.

(** ** The invariant of the script *)

Section Invariant.

Variable E : profile → Prop.
Hypothesis E_entered : ∀ wd, E (entered_profile wd).

Variables (sv : services) (wd : widgets).

Lemma firstn_nonempty {A} (n : nat) (l : list A) :
  nonempty l = true → firstn (S n) l ≠ [].
Proof. by destruct l. Qed.

Lemma world_ok_add_log (l : list event) (w : world) :
  world_ok E (add_log l w) ↔ world_ok E w.
Proof. done. Qed.

Lemma store_ok_dump (data0 : gmap string candidate_record)
    (d d' : storage) (key : string) (r : candidate_record) :
  store_ok E d → load_from d = inr data0 → E (info r) →
  dump_to (<[key := r]> data0) d = inr d' → store_ok E d'.
Proof.
  intros Hd Hload Hr Hdump data' key' r' Hload' Hkey'.
  unfold dump_to in Hdump. destruct (writable d); [|by destruct (cut_short d)].
  injection Hdump as <-. rewrite (load_from_put _ _ _ Hload) in Hload'.
  injection Hload' as <-.
  destruct (decide (key = key')) as [<-|Hne].
  - rewrite lookup_insert_eq in Hkey'. by injection Hkey' as <-.
  - rewrite lookup_insert_ne in Hkey' by done. eauto.
Qed.

(** A write that fails leaves a store without records to check, or the
    store as it was. *)
Lemma store_ok_dump_failed (data data0 : gmap string candidate_record)
    (d d' : storage) (e : exn) :
  store_ok E d → load_from d = inr data0 →
  dump_to data d = inl (e, d') → store_ok E d'.
Proof.
  intros Hd Hload Hdump. unfold dump_to in Hdump.
  destruct (writable d); [done|].
  destruct (cut_short d) as [raw|]; injection Hdump as <- <-; [|done].
  intros data' key' r' Hload'.
  by rewrite (load_from_put _ _ _ Hload) in Hload'.
Qed.

Ltac ok_session :=
  constructor; simpl; intros; simplify_eq;
  eauto using firstn_nonempty; try lia.

Ltac ok_world :=
  unfold world_ok; wp_simpl; first [by split | split; [ok_session | eassumption]].

Lemma gather_ok (w : world) :
  world_ok E w → interview_started (session w) = false →
  wp (gather_candidate_info sv wd)
     (λ r w', world_ok E w'
              ∧ ∀ a, r = Value a → interview_started (session w') = false) w.
Proof.
  intros [Hs Hd] Hidle. unfold gather_candidate_info.
  apply wp_bind, wp_logs_only; [apply candidate_info_form_logs|].
  intros [] l. wp_simpl.
  destruct (submit_info wd); wp_simpl; [|wp_steps; split; [ok_world|done]].
  unfold on_submit_info.
  destruct (_ || _); wp_steps; [split; [ok_world|done]|].
  pose proof Hs as [].
  unfold generate_questions.
  destruct (negb _); wp_steps.
  - split; [ok_world|done].
  - destruct (invoke sv _) as [response|]; wp_steps.
    + destruct (nonempty _) eqn:Hqs; wp_steps.
      * split; [ok_world|done].
      * split; [ok_world|done].
    + split; [ok_world|done].
Qed.

Lemma interview_ok (w : world) :
  world_ok E w → wp (interview_process sv wd) (λ _ w', world_ok E w') w.
Proof.
  intros [Hs Hd]. unfold interview_process. wp_steps.
  destruct (_ && _) eqn:Hgo; wp_simpl; [|by wp_steps].
  apply andb_prop in Hgo as [Hstarted Hqs].
  destruct (_ <? _) eqn:Hlt.
  - apply Nat.ltb_lt in Hlt.
    unfold ask_question, item. wp_steps.
    destruct (questions (session w) !! question_index (session w))
      as [q|] eqn:Hq; wp_steps; [|ok_world].
    pose proof Hs as [].
    destruct (submit_answer wd); wp_simpl; [|wp_steps; ok_world].
    unfold on_submit_answer, item. wp_steps.
    destruct (negb _); wp_steps; [ok_world|].
    rewrite Hq. wp_steps. ok_world. rewrite length_app. simpl. lia.
  - unfold complete_interview, save_interview.
    apply wp_bind, wp_bind, wp_load_data; [|intros e _; ok_world].
    intros data Hload. wp_steps.
    destruct (candidate_info (session w)) as [p|] eqn:Hp; wp_steps; [|ok_world].
    apply wp_save_data;
      [|intros e d' Hdump; unfold world_ok; wp_simpl;
        split; [exact Hs | by eapply store_ok_dump_failed]].
    intros d' Hdump. wp_simpl.
    assert (store_ok E d') as Hd'.
    { eapply store_ok_dump; [exact Hd|exact Hload| |exact Hdump].
      simpl. by apply Hs. }
    apply wp_bind, wp_logs_only; [apply show_responses_logs|].
    intros [] l. wp_simpl.
    unfold restart_option. wp_steps.
    pose proof Hs as [].
    destruct (start_new wd); wp_steps; ok_world.
Qed.

Theorem script_ok (w : world) :
  world_ok E w → wp (script sv wd) (λ _ w', world_ok E w') w.
Proof.
  intros [Hs Hd]. unfold script. do 2 wp_step.
  assert (world_ok E (opened wd w)) as Hok.
  { split; [|done]. destruct Hs. by constructor. }
  clear Hs Hd. generalize dependent (opened wd w). clear w.
  intros w Hok. do 2 wp_step.
  destruct (interview_started (session w)) eqn:Hstarted; cbn [negb when].
  - wp_steps. eapply wp_mono; [apply interview_ok, Hok|].
    intros [[]| |e] w' Hw'; wp_simpl; [|done..].
    apply wp_quiet; [apply admin_view_quiet|]. by intros r l _.
  - apply wp_bind. eapply wp_mono; [apply gather_ok; [exact Hok|done]|].
    intros [[]| |e] w' [Hw' Hidle]; wp_simpl; [|done..].
    apply wp_bind. eapply wp_mono; [apply interview_ok, Hw'|].
    intros [[]| |e] w'' Hw''; wp_simpl; [|done..].
    apply wp_quiet; [apply admin_view_quiet|]. by intros r l _.
Qed.

End Invariant.

(** ** Sessions of any length *)

Section Browsing.

Variable E : profile → Prop.
Hypothesis E_entered : ∀ wd, E (entered_profile wd).

Lemma interaction_ok sv wd (w : world) :
  world_ok E w → world_ok E (interaction sv wd w).2.
Proof.
  intros Hw. unfold interaction.
  pose proof (script_ok E E_entered sv wd w Hw) as H1. unfold wp in H1.
  destruct (script sv wd w) as [[[]| |e] w1]; try exact H1.
  apply (script_ok E E_entered sv (released wd) w1 H1).
Qed.

Lemma browse_ok (inputs : list (services * widgets)) (w : world) :
  world_ok E w → world_ok E (browse inputs w).
Proof.
  revert w. induction inputs as [|[sv wd] inputs IH]; intros w Hw; [done|].
  simpl. apply IH, interaction_ok, Hw.
Qed.

Lemma fresh_ok (d : storage) : store_ok E d → world_ok E (fresh d).
Proof. intros Hd. split; [by constructor | exact Hd]. Qed.

End Browsing.

Lemma entered_profile_ok (wd : widgets) : experience_ok (entered_profile wd).
Proof. unfold experience_ok, entered_profile, number_input. simpl. lia. Qed.

(** ** The script, phase by phase *)

Section Phases.

Lemma phase_intake (s : session_state) :
  phase_of s = Some INTAKE ↔ interview_started s = false.
Proof.
  unfold phase_of. destruct (interview_started s); simpl; [|done].
  destruct (nonempty _); [destruct (_ <? _)|]; by split.
Qed.

Lemma phase_interviewing (s : session_state) :
  phase_of s = Some INTERVIEWING ↔
  interview_started s = true ∧ nonempty (questions s) = true
  ∧ (question_index s <? length (questions s)) = true.
Proof.
  unfold phase_of. destruct (interview_started s); simpl; [|by intuition].
  destruct (nonempty _); [destruct (_ <? _)|]; by intuition.
Qed.

Lemma phase_complete (s : session_state) :
  phase_of s = Some COMPLETE ↔
  interview_started s = true ∧ nonempty (questions s) = true
  ∧ (question_index s <? length (questions s)) = false.
Proof.
  unfold phase_of. destruct (interview_started s); simpl; [|by intuition].
  destruct (nonempty _); [destruct (_ <? _)|]; by intuition.
Qed.

Lemma phase_of_language (lang : string) (s : session_state) :
  phase_of (set_preferred_language lang s) = phase_of s.
Proof. done. Qed.

Lemma phase_of_same (s s' : session_state) :
  same_interview s s' → phase_of s' = phase_of s.
Proof.
  intros (Hc & Hi & Hq & Hp & Hs). unfold phase_of. by rewrite Hi, Hq, Hs.
Qed.

Variables (sv : services) (wd : widgets).

(** The script up to the dispatch on the phase. *)
Ltac enter_script :=
  unfold script; do 4 wp_step; unfold opened; wp_simpl.

(** What the last part of the script, the admin view, leaves. *)
Ltac leave_script :=
  apply wp_quiet; [apply admin_view_quiet|]; intros ? ? ?; wp_simpl.

(** The form is shown and not submitted, or submitted incomplete. *)
Lemma script_intake_idle (w : world) :
  interview_started (session w) = false →
  submit_info wd = false
  ∨ PyStr.truthy (full_name wd) && PyStr.truthy (email wd)
    && PyStr.truthy (phone wd) && PyStr.truthy (tech_stack wd) = false →
  wp (script sv wd)
     (λ r w', r ≠ Rerun ∧ session w' = session (opened wd w)
              ∧ disk w' = disk w) w.
Proof.
  intros Hidle Hno. enter_script. rewrite Hidle. cbn [negb when].
  unfold gather_candidate_info.
  do 2 apply wp_bind. apply wp_logs_only; [apply candidate_info_form_logs|].
  intros [] l. wp_simpl.
  assert (wp (when (submit_info wd) (on_submit_info sv wd))
            (λ r w', r = Value () ∧ session w' = session (opened wd w)
                     ∧ disk w' = disk w)
            (add_log l (opened wd w))) as Hform.
  { destruct (submit_info wd) eqn:Hsubmit; cbn [when]; [|by wp_steps].
    destruct Hno as [|Hmissing]; [done|].
    unfold on_submit_info.
    destruct (PyStr.truthy (full_name wd)), (PyStr.truthy (email wd)),
      (PyStr.truthy (phone wd)), (PyStr.truthy (tech_stack wd));
      try discriminate Hmissing; simpl; by wp_steps. }
  eapply wp_mono; [exact Hform|].
  intros r w' (-> & Hs & Hd). wp_simpl.
  unfold interview_process. wp_steps.
  rewrite Hs. unfold opened. wp_simpl. rewrite Hidle. cbn [andb when].
  wp_steps. leave_script. by rewrite Hs.
Qed.

(** The form is submitted with a tech stack that fails validation. *)
Lemma script_intake_invalid (w : world) :
  interview_started (session w) = false →
  submit_info wd = true →
  PyStr.truthy (full_name wd) = true → PyStr.truthy (email wd) = true →
  PyStr.truthy (phone wd) = true → PyStr.truthy (tech_stack wd) = true →
  validate_tech_stack (tech_stack wd) = false →
  wp (script sv wd)
     (λ r w', r = Rerun
              ∧ session w' = sentinel_session sv wd
              ∧ disk w' = disk w) w.
Proof.
  intros Hidle Hsubmit Hn He Hp Ht Hinvalid.
  enter_script. rewrite Hidle. cbn [negb when].
  unfold gather_candidate_info.
  do 2 apply wp_bind. apply wp_logs_only; [apply candidate_info_form_logs|].
  intros [] l. wp_simpl. rewrite Hsubmit. cbn [when].
  unfold on_submit_info. rewrite Hn, He, Hp, Ht. simpl.
  unfold generate_questions. rewrite Hinvalid. simpl.
  by wp_steps.
Qed.

(** A question is shown; nothing is submitted, or a blank answer is. *)
Lemma script_ask_idle (w : world) :
  phase_of (session w) = Some INTERVIEWING →
  submit_answer wd = false
  ∨ PyStr.strip (text_area (typed_answer wd) (current_answer (session w))) = "" →
  wp (script sv wd)
     (λ r w', r ≠ Rerun
              ∧ session w'
                = set_current_answer
                    (text_area (typed_answer wd) (current_answer (session w)))
                    (session (opened wd w))
              ∧ disk w' = disk w) w.
Proof.
  intros (Hstarted & Hqs & Hlt)%phase_interviewing Hno.
  enter_script. rewrite Hstarted. cbn [negb when]. wp_steps.
  unfold interview_process. wp_steps.
  rewrite Hstarted, Hqs, Hlt. cbn [andb when].
  apply Nat.ltb_lt, lookup_lt_is_Some_2 in Hlt as [q Hq].
  unfold ask_question, item. wp_steps. rewrite Hq. wp_steps.
  destruct (submit_answer wd) eqn:Hsubmit; cbn [when].
  - destruct Hno as [|Hblank]; [done|].
    unfold on_submit_answer. wp_steps. rewrite Hblank. simpl.
    wp_steps. by leave_script.
  - wp_steps. by leave_script.
Qed.

(** A question is shown and a non-blank answer is submitted. *)
Lemma script_ask_answer (w : world) :
  phase_of (session w) = Some INTERVIEWING →
  submit_answer wd = true →
  PyStr.truthy
    (PyStr.strip (text_area (typed_answer wd) (current_answer (session w))))
  = true →
  wp (script sv wd)
     (λ r w', r = Rerun
              ∧ (∃ q label,
                    questions (session w) !! question_index (session w) = Some q
                    ∧ session w'
                      = answered q
                          (text_area (typed_answer wd) (current_answer (session w)))
                          label (session (opened wd w)))
              ∧ disk w' = disk w) w.
Proof.
  intros (Hstarted & Hqs & Hlt)%phase_interviewing Hsubmit Htext.
  enter_script. rewrite Hstarted. cbn [negb when]. wp_steps.
  unfold interview_process. wp_steps.
  rewrite Hstarted, Hqs, Hlt. cbn [andb when].
  apply Nat.ltb_lt, lookup_lt_is_Some_2 in Hlt as [q Hq].
  unfold ask_question, item. wp_steps. rewrite Hq. wp_steps.
  rewrite Hsubmit. cbn [when].
  unfold on_submit_answer, item. wp_steps. rewrite Htext. simpl.
  wp_steps. rewrite Hq. wp_steps. eauto 10.
Qed.

Lemma save_interview_run (w : world) :
  save_interview w
  = match save_result (session w) (disk w) with
    | inl (e, d') =>
        (Raised e, {| session := session w; disk := d'; log := log w |})
    | inr d' => (Value (), {| session := session w; disk := d'; log := log w |})
    end.
Proof.
  unfold save_interview, save_result, mbind, M_bind, load_data, get_session,
    save_data, record_of.
  destruct (load_from (disk w)) as [e|data]; [by destruct w|].
  destruct (candidate_info (session w)) as [p|]; [|by destruct w].
  simpl. by destruct (dump_to _ _) as [[e d']|d'].
Qed.

Lemma wp_save_interview (Q : outcome () → world → Prop) (w : world) :
  match save_result (session w) (disk w) with
  | inl (e, d') =>
      Q (Raised e) {| session := session w; disk := d'; log := log w |}
  | inr d' => Q (Value ()) {| session := session w; disk := d'; log := log w |}
  end →
  wp save_interview Q w.
Proof.
  unfold wp. rewrite save_interview_run.
  by destruct (save_result (session w) (disk w)) as [[e d']|d'].
Qed.

(** The interview is over: the record is saved, or the execution stops
    on an exception; the session changes only on a restart. *)
Lemma script_complete (w : world) :
  phase_of (session w) = Some COMPLETE →
  wp (script sv wd)
     (λ r w',
        match save_result (session w) (disk w) with
        | inl (e, d') =>
            r = Raised e ∧ session w' = session (opened wd w)
            ∧ disk w' = d'
        | inr d' =>
            disk w' = d'
            ∧ if start_new wd
              then r = Rerun ∧ session w' = restarted (session (opened wd w))
              else r ≠ Rerun ∧ session w' = session (opened wd w)
        end) w.
Proof.
  intros (Hstarted & Hqs & Hlt)%phase_complete.
  enter_script. rewrite Hstarted. cbn [negb when]. wp_steps.
  unfold interview_process. wp_steps.
  rewrite Hstarted, Hqs, Hlt. cbn [andb when].
  unfold complete_interview. apply wp_bind, wp_save_interview. wp_simpl.
  change (save_result (set_preferred_language _ (session w)) (disk w))
    with (save_result (session w) (disk w)).
  destruct (save_result (session w) (disk w)) as [[e d']|d']; wp_simpl;
    [done|].
  apply wp_bind, wp_logs_only; [apply show_responses_logs|].
  intros [] l. wp_simpl. unfold restart_option. wp_steps.
  destruct (start_new wd); cbn [when]; wp_steps; [done|].
  by leave_script.
Qed.

End Phases.

(** ** The phase is the dispatch of the script *)

Section Dispatch.

Variables (sv : services) (wd : widgets).

Lemma bind_ext_run {A B} (m : M A) (k k' : A → M B) (w : world) :
  (∀ a w', m w = (Value a, w') → k a w' = k' a w') →
  (m ≫= k) w = (m ≫= k') w.
Proof.
  intros Hk. unfold mbind, M_bind.
  destruct (m w) as [[a| |e] w'] eqn:Hm; [by apply Hk|done..].
Qed.

(** When the form returns, the interview has not started. *)
Lemma gather_returns_idle (w : world) :
  interview_started (session w) = false →
  wp (gather_candidate_info sv wd)
     (λ r w', ∀ a, r = Value a → interview_started (session w') = false) w.
Proof.
  intros Hidle. unfold gather_candidate_info.
  apply wp_bind, wp_logs_only; [apply candidate_info_form_logs|].
  intros [] l. wp_simpl.
  destruct (submit_info wd); cbn [when]; [|by wp_steps].
  unfold on_submit_info. destruct (_ || _); wp_steps; [done|].
  unfold generate_questions. destruct (negb _); wp_steps; [done|].
  destruct (invoke sv _); wp_steps; [|done].
  destruct (nonempty _); by wp_steps.
Qed.

Lemma bind_run_l {A B} (m m' : M A) (k : A → M B) (w : world) :
  m w = m' w → (m ≫= k) w = (m' ≫= k) w.
Proof. intros Hm. unfold mbind, M_bind. by rewrite Hm. Qed.

Lemma dispatch_after_top (w : world) :
  (s ← get_session;
   when (negb (interview_started s)) (gather_candidate_info sv wd) ;;
   interview_process sv wd ;;
   admin_view sv wd) w
  = (match phase_of (session w) with
     | Some INTAKE => gather_candidate_info sv wd
     | Some INTERVIEWING => ask_question sv wd (question_index (session w))
     | Some COMPLETE => complete_interview sv wd
     | None => mret ()
     end ;;
     admin_view sv wd) w.
Proof.
  unfold mbind at 1, M_bind at 1, get_session at 1.
  unfold phase_of.
  destruct (interview_started (session w)) eqn:Hstarted; cbn [negb when].
  - unfold mbind at 1, M_bind at 1, mret at 1, M_ret at 1.
    apply bind_run_l.
    unfold interview_process, mbind, M_bind, get_session.
    rewrite Hstarted. cbn [andb].
    destruct (nonempty (questions (session w))); cbn [when]; [|done].
    by destruct (_ <? _).
  - apply bind_ext_run. intros [] w2 Hgather.
    pose proof (gather_returns_idle w Hstarted) as Hidle.
    unfold wp in Hidle. rewrite Hgather in Hidle.
    specialize (Hidle () eq_refl). simpl in Hidle.
    unfold interview_process, mbind at 1 2, M_bind at 1 2, get_session.
    by rewrite Hidle.
Qed.

(** The two tests of lines 98 and 133 select one part of the script, the
    one that [phase_of] names. *)
Lemma script_dispatch (w : world) :
  script sv wd w
  = (page_top wd ;;
     match phase_of (session w) with
     | Some INTAKE => gather_candidate_info sv wd
     | Some INTERVIEWING => ask_question sv wd (question_index (session w))
     | Some COMPLETE => complete_interview sv wd
     | None => mret ()
     end ;;
     admin_view sv wd) w.
Proof.
  unfold script. apply bind_ext_run. intros [] w1.
  rewrite page_top_run. intros [= <-].
  exact (dispatch_after_top (opened wd w)).
Qed.

(** An interview started without questions: nothing is asked. *)
Lemma script_stalled (w : world) :
  phase_of (session w) = None →
  wp (script sv wd)
     (λ r w', r ≠ Rerun ∧ session w' = session (opened wd w)
              ∧ disk w' = disk w) w.
Proof.
  intros Hphase. unfold wp. rewrite script_dispatch, Hphase.
  change (wp (page_top wd ;; mret () ;; admin_view sv wd)
            (λ r w', r ≠ Rerun ∧ session w' = session (opened wd w)
                     ∧ disk w' = disk w) w).
  wp_steps. apply wp_quiet; [apply admin_view_quiet|]. by intros r l Hr.
Qed.

End Dispatch.

(** The execution that a rerun starts does not ask for another one. *)
Lemma released_no_rerun (sv : services) (wd : widgets) (w : world) :
  (script sv (released wd) w).1 ≠ Rerun.
Proof.
  destruct (phase_of (session w)) as [[| |]|] eqn:Hphase.
  - apply phase_intake in Hphase.
    by destruct (script_intake_idle sv (released wd) w Hphase (or_introl eq_refl)).
  - by destruct (script_ask_idle sv (released wd) w Hphase (or_introl eq_refl)).
  - pose proof (script_complete sv (released wd) w Hphase) as Hrun.
    unfold wp in Hrun. revert Hrun.
    destruct (save_result _ _) as [[e d']|d']; cbn [released start_new].
    + by intros (-> & _).
    + by intros (_ & Hr & _).
  - by destruct (script_stalled sv (released wd) w Hphase).
Qed.

(** ** The session invariant *)

(** C1. In every session, before any interaction and after every one, and
    also when a single execution of the script stops (be it on the rerun
    that follows a submitted answer or on an exception), the conversation has
    as many entries as [question_index] says, and [question_index] does not
    exceed the number of questions. *)
Theorem answers_track_index :
  ∀ (inputs : list (services * widgets)) (d : storage)
    (sv : services) (wd : widgets),
    let w := browse inputs (fresh d) in
    let w' := (script sv wd w).2 in
    (length (conversation (session w)) = question_index (session w)
     ∧ question_index (session w) ≤ length (questions (session w)))
    ∧ (length (conversation (session w')) = question_index (session w')
       ∧ question_index (session w') ≤ length (questions (session w'))).
Proof.
  intros inputs d sv wd w w'.
  assert (world_ok (λ _, True) w) as Hw.
  { apply browse_ok; [done|]. apply fresh_ok. by intros ? ? ? _ _. }
  assert (world_ok (λ _, True) w') as Hw'.
  { by apply (script_ok (λ _, True)). }
  destruct Hw as [[] _], Hw' as [[] _]. auto.
Qed.

(** C10. Years of experience stay within the bounds of the form: in a
    session opened on a store whose records have between 0 and 50 years, the
    profile of the session and every record of the store have between 0 and
    50 years, whatever the interactions. *)
Theorem experience_within_form_bounds :
  ∀ (inputs : list (services * widgets)) (d : storage),
    store_ok experience_ok d →
    let w := browse inputs (fresh d) in
    (∀ p, candidate_info (session w) = Some p →
          (0 ≤ info_experience p ≤ 50)%Z)
    ∧ (∀ data key r,
          load_from (disk w) = inr data → data !! key = Some r →
          (0 ≤ info_experience (info r) ≤ 50)%Z).
Proof.
  intros inputs d Hd w.
  assert (world_ok experience_ok w) as [Hs Hstore].
  { apply browse_ok; [apply entered_profile_ok|]. by apply fresh_ok. }
  split.
  - intros p Hp. by apply (ok_profile _ _ Hs).
  - intros data key r Hload Hkey. exact (Hstore data key r Hload Hkey).
Qed.

(** Seventy-seven years are entered; fifty are kept and saved. *)
Lemma experience_within_form_bounds_witness :
  store_ok experience_ok Demo.no_file
  ∧ ∀ data key r,
      load_from
        (disk (browse [(Demo.online, Demo.form English 77 "Python, SQL");
                       (Demo.online, Demo.reply English "A sequence.");
                       (Demo.online, Demo.reply English "A combination.")]
                 (fresh Demo.no_file))) = inr data →
      data !! key = Some r →
      (0 ≤ info_experience (info r) ≤ 50)%Z.
Proof.
  assert (store_ok experience_ok Demo.no_file) as Hd.
  { intros data key r Hload Hkey. injection Hload as <-.
    by rewrite lookup_empty in Hkey. }
  split; [exact Hd|].
  exact (proj2 (experience_within_form_bounds
                  [(Demo.online, Demo.form English 77 "Python, SQL");
                   (Demo.online, Demo.reply English "A sequence.");
                   (Demo.online, Demo.reply English "A combination.")]
                  Demo.no_file Hd)).
Defined.

(** ** The record store *)

Lemma load_data_run (w : world) :
  load_data w
  = (match load_from (disk w) with
     | inr data => Value data
     | inl e => Raised e
     end, w).
Proof. unfold load_data. by destruct (load_from (disk w)). Qed.

(** C7. [load_data] returns the empty mapping, and no error, when
    [os.path.exists] finds no file: nothing is at the path, or what is there
    cannot be reached.  When the file is found but cannot be opened for
    reading, or its text is not JSON, [load_data] raises ([OSError],
    [JSONDecodeError]) and returns no mapping, and nothing catches the
    exception: the execution of the script that is to save a finished
    interview stops on it, the store untouched.  A document is returned as it
    is.  The world is left as it was in every case. *)
Theorem load_data_absent_or_corrupt :
  ∀ w : world,
    (load_data w).2 = w
    ∧ (load_data w).1 ≠ Rerun
    ∧ (data_file (disk w) = None → load_data w = (Value ∅, w))
    ∧ (∀ e, (load_data w).1 = Raised e ↔
            (data_file (disk w) = Some Unreadable ∧ e = OSError)
            ∨ (∃ raw, data_file (disk w) = Some (Malformed raw)
                      ∧ e = JSONDecodeError))
    ∧ (∀ data, (load_data w).1 = Value data ↔
               data_file (disk w) = Some (Document data)
               ∨ (data = ∅ ∧ (data_file (disk w) = None
                              ∨ data_file (disk w) = Some Unseen)))
    ∧ (∀ sv wd e,
          (load_data w).1 = Raised e →
          phase_of (session w) = Some COMPLETE →
          (script sv wd w).1 = Raised e
          ∧ disk (script sv wd w).2 = disk w).
Proof.
  intros w. rewrite load_data_run. cbn [fst snd].
  split; [done|]. split; [by destruct (load_from (disk w))|].
  split; [unfold load_from; by intros ->|].
  split; [|split].
  - intros e. unfold load_from.
    destruct (data_file (disk w)) as [[| |raw|data]|];
      (split; [intros ?; simplify_eq; eauto
              | intros [[? ?]|(? & ? & ?)]; by simplify_eq]).
  - intros data. unfold load_from.
    destruct (data_file (disk w)) as [[| |raw|data']|];
      (split; [intros ?; simplify_eq; eauto
              | intros [?|[? [?|?]]]; by simplify_eq]).
  - intros sv wd e Hraised Hphase.
    pose proof (script_complete sv wd w Hphase) as Hrun. unfold wp in Hrun.
    unfold save_result in Hrun.
    destruct (load_from (disk w)) as [e'|data]; [|done].
    injection Hraised as ->. by destruct Hrun as (Hr & _ & Hd).
Qed.

(** A finished interview on a store whose file is not JSON: the execution
    of the script stops on [JSONDecodeError]. *)
Lemma load_data_absent_or_corrupt_witness :
  let w := {| session := Demo.done_session; disk := Sample.broken; log := [] |} in
  load_data w = (Raised JSONDecodeError, w)
  ∧ (script Demo.online Sample.restart w).1 = Raised JSONDecodeError.
Proof.
  split; [reflexivity|].
  destruct (load_data_absent_or_corrupt
              {| session := Demo.done_session; disk := Sample.broken; log := [] |})
    as (_ & _ & _ & _ & _ & Hstops).
  exact (proj1 (Hstops Demo.online Sample.restart JSONDecodeError
                  eq_refl eq_refl)).
Defined.

(** Counterexample to C7 as it is worded ("when the file exists but cannot
    be read ... it fails"): Bob's store, in a directory that the process
    cannot search, exists and cannot be read; [load_data] returns the empty
    mapping, and no error. *)
Lemma load_data_unreachable_store_is_empty :
  let w := {| session := initial_session; disk := Sample.hidden; log := [] |} in
  data_file (disk w) = Some Unseen
  ∧ load_data w = (Value ∅, w).
Proof. by vm_compute. Qed.

Lemma filter_none {A} (P : A → Prop) `{!∀ x, Decision (P x)} (l : list A) :
  (∀ x, x ∈ l → ¬ P x) → filter P l = [].
Proof.
  induction l as [|x l IH]; intros Hl; [done|].
  rewrite filter_cons_False by (apply Hl; left).
  apply IH. intros y Hy. apply Hl. by right.
Qed.

Lemma lookup_only_entry (data : gmap string candidate_record)
    (key : string) (r : candidate_record) :
  data !! key = Some r →
  filter (λ entry, entry.1 = key) (map_to_list data) = [(key, r)].
Proof.
  intros Hkey.
  apply Permutation_singleton_r.
  rewrite <- (insert_delete_id data key r Hkey).
  rewrite map_to_list_insert by apply lookup_delete_eq.
  rewrite filter_cons_True by done.
  apply Permutation_skip.
  assert (filter (λ entry : string * candidate_record, entry.1 = key)
            (map_to_list (delete key data)) = []) as ->; [|done].
  apply filter_none.
  intros [key' r'] Hin%elem_of_map_to_list Heq. simpl in Heq. subst key'.
  by rewrite lookup_delete_eq in Hin.
Qed.

(** C5. Saving the interview twice is saving it once: the second
    [save_interview] changes nothing more, whether the first succeeded or
    raised; and after a success the store holds the session's record under
    the candidate's email, in exactly one entry. *)
Theorem save_interview_idempotent :
  ∀ w : world,
    (save_interview ;; save_interview) w = save_interview w
    ∧ ∀ w1,
        save_interview w = (Value (), w1) →
        save_interview w1 = (Value (), w1)
        ∧ ∃ p data,
            candidate_info (session w) = Some p
            ∧ load_from (disk w1) = inr data
            ∧ data !! info_email p = Some (record_of p (session w))
            ∧ filter (λ entry, entry.1 = info_email p) (map_to_list data)
              = [(info_email p, record_of p (session w))].
Proof.
  intros w.
  assert (∀ w1, save_interview w = (Value (), w1) →
                save_interview w1 = (Value (), w1)
                ∧ ∃ p data,
                    candidate_info (session w) = Some p
                    ∧ load_from (disk w1) = inr data
                    ∧ data !! info_email p = Some (record_of p (session w))
                    ∧ filter (λ entry, entry.1 = info_email p) (map_to_list data)
                      = [(info_email p, record_of p (session w))]) as Hagain.
  { intros w1. rewrite save_interview_run. unfold save_result.
    destruct (load_from (disk w)) as [e|data0] eqn:Hload; [done|].
    destruct (candidate_info (session w)) as [p|] eqn:Hp; [|done].
    destruct (dump_to _ (disk w)) as [[e d']|d'] eqn:Hdump; [done|].
    intros [= <-].
    destruct (dump_to_again _ _ _ _ Hload Hdump) as [Hload1 Hdump1]. split.
    - rewrite save_interview_run. unfold save_result. cbn [session disk].
      by rewrite Hload1, Hp, insert_insert_eq, Hdump1.
    - exists p, (<[info_email p := record_of p (session w)]> data0).
      split; [done|]. split; [done|].
      split; [apply lookup_insert_eq|].
      apply lookup_only_entry, lookup_insert_eq. }
  split; [|exact Hagain].
  unfold mbind, M_bind.
  destruct (save_interview w) as [[[]| |e] w1] eqn:Hfirst; [|done..].
  by destruct (Hagain w1 eq_refl) as [-> _].
Qed.

Lemma save_interview_idempotent_witness :
  let w1 := (save_interview Demo.done_world).2 in
  save_interview Demo.done_world = (Value (), w1)
  ∧ save_interview w1 = (Value (), w1).
Proof.
  assert (save_interview Demo.done_world
          = (Value (), (save_interview Demo.done_world).2)) as Hfirst.
  { vm_compute. reflexivity. }
  split; [exact Hfirst|].
  exact (proj1 (proj2 (save_interview_idempotent Demo.done_world) _ Hfirst)).
Defined.

(** ** Translation and question generation *)

(** C8. [translate_text] hands the text back, and calls no service, when
    the target is "en"; it hands the text back when the call to the
    translator fails; and this for every text. *)
Theorem translate_text_passthrough :
  (∀ sv text w, translate_text sv text "en" w = (Value text, w))
  ∧ (∀ sv text target_lang w,
        translate sv text target_lang = None →
        (translate_text sv text target_lang w).1 = Value text).
Proof.
  split.
  - intros sv text w. rewrite translate_text_run. unfold add_log. simpl.
    rewrite app_nil_r. by destruct w.
  - intros sv text target_lang w Hfail. rewrite translate_text_run.
    unfold translated. rewrite Hfail. simpl. by destruct (decide _).
Qed.

Lemma translate_text_passthrough_witness :
  translate Demo.online "Full Name" "hi" = None
  ∧ (translate_text Demo.online "Full Name" "hi" (fresh Demo.no_file)).1
    = Value "Full Name".
Proof.
  split; [reflexivity|].
  apply (proj2 translate_text_passthrough). reflexivity.
Defined.

Lemma length_firstn_nonempty {A} (n : nat) (l : list A) :
  nonempty l = true → 1 ≤ length (firstn (S n) l) ≤ S n.
Proof.
  intros Hl. rewrite length_firstn. destruct l; [done|]. simpl. lia.
Qed.

(** C4. For a tech stack that passes validation and a generator that
    answers, [generate_questions] sends the prompt built from the tech stack
    and returns the first five usable lines of the response (the lines split
    at line feeds, trimmed, the blank ones dropped) or, when no line is
    usable, the single fallback message in the display language; either way
    between one and five questions. *)
Theorem generate_questions_valid :
  ∀ sv tech response w,
    validate_tech_stack tech = true →
    invoke sv (prompt_for tech) = Some response →
    let lang := preferred_language (session w) in
    let fallback := "Unable to generate questions." in
    let qs :=
      if nonempty (usable_lines response)
      then firstn 5 (usable_lines response)
      else [translated sv fallback lang] in
    generate_questions sv tech w
    = (Value qs,
       add_log (Called_invoke (prompt_for tech)
                  :: (if nonempty (usable_lines response) then []
                      else translator_calls fallback lang)) w)
    ∧ prompt_for tech
      = "Generate 5 interview questions for a candidate skilled in "
          +:+ tech +:+ "."
    ∧ 1 ≤ length qs ≤ 5.
Proof.
  intros sv tech response w Hvalid Hresponse lang fallback qs.
  split; [|split; [done|]].
  - unfold generate_questions. rewrite Hvalid. simpl.
    unfold mbind, M_bind, emit. rewrite Hresponse. simpl.
    rewrite strip_filter_usable. fold (usable_lines response).
    subst qs. destruct (nonempty (usable_lines response)).
    + done.
    + rewrite localized_run. simpl. by rewrite add_log_add_log.
  - subst qs. destruct (nonempty (usable_lines response)) eqn:Hlines.
    + by apply length_firstn_nonempty.
    + simpl. lia.
Qed.

Lemma generate_questions_valid_witness :
  (generate_questions Demo.online "Python, SQL" (fresh Demo.no_file)).1
  = Value ["1. What is a list?"; "2. What is a join?"].
Proof.
  rewrite (proj1 (generate_questions_valid Demo.online "Python, SQL" _
                    (fresh Demo.no_file) eq_refl eq_refl)).
  reflexivity.
Defined.

(** ** Submitting an answer *)

Section Interactions.

Variables (sv : services) (wd : widgets).

Lemma interaction_no_rerun (w : world) :
  (script sv wd w).1 ≠ Rerun → interaction sv wd w = script sv wd w.
Proof.
  unfold interaction. by destruct (script sv wd w) as [[[]| |e] w1].
Qed.

Lemma interaction_rerun (w : world) :
  (script sv wd w).1 = Rerun →
  interaction sv wd w = script sv (released wd) (script sv wd w).2.
Proof.
  unfold interaction. by destruct (script sv wd w) as [[[]| |e] w1].
Qed.

End Interactions.

(** C3, as the script has it.  The handler of the submit button, on an
    answer box that holds nothing but blanks, shows the retry prompt and
    changes neither the session nor the store; it does not call the sentiment
    scorer and does not translate the answer; its one call to the translator
    is for the retry prompt, and is made only when the display language is
    not "en".  Over the whole interaction the questions, the conversation,
    the index, the profile and the store stay as they were, and no rerun is
    asked for. *)
Theorem blank_answer_rejected :
  (∀ sv index w,
      PyStr.strip (current_answer (session w)) = "" →
      let lang := preferred_language (session w) in
      on_submit_answer sv index w
      = (Value (),
         add_log (translator_calls blank_answer_prompt lang
                    ++ [Shown (warning (translated sv blank_answer_prompt lang))])
                 w))
  ∧ translator_calls blank_answer_prompt "en" = []
  ∧ (∀ sv wd w,
        phase_of (session w) = Some INTERVIEWING →
        submit_answer wd = true →
        PyStr.strip (text_area (typed_answer wd) (current_answer (session w))) = "" →
        let r := interaction sv wd w in
        r.1 ≠ Rerun ∧ same_interview (session w) (session r.2)
        ∧ disk r.2 = disk w).
Proof.
  split; [|split; [done|]].
  - intros sv index w Hblank lang.
    unfold on_submit_answer, mbind, M_bind, get_session.
    rewrite Hblank. simpl. rewrite localized_run. unfold show, emit.
    by rewrite add_log_add_log.
  - intros sv wd w Hphase _ Hblank r.
    pose proof (script_ask_idle sv wd w Hphase (or_intror Hblank)) as Hrun.
    unfold wp in Hrun. destruct Hrun as (Hr & Hs & Hd).
    subst r. rewrite (interaction_no_rerun sv wd w Hr).
    split; [done|]. split; [|done]. by rewrite Hs.
Qed.

Lemma blank_answer_rejected_witness :
  PyStr.strip (current_answer (session Demo.blank_world)) = ""
  ∧ session (on_submit_answer Demo.online 0 Demo.blank_world).2
    = session Demo.blank_world.
Proof.
  split; [reflexivity|].
  by rewrite (proj1 blank_answer_rejected Demo.online 0 Demo.blank_world eq_refl).
Defined.

(** Counterexample to C3 as it is worded ("no translation call is made"):
    with the page shown in Telugu, the handler, run on an answer box of three
    spaces, calls the translator for the retry prompt. *)
Lemma blank_answer_calls_translator :
  PyStr.strip (current_answer (session Demo.blank_world)) = ""
  ∧ log Demo.blank_world = []
  ∧ log (on_submit_answer Demo.online 0 Demo.blank_world).2
    = [Called_translate blank_answer_prompt "te";
       Shown (warning ("[te] " +:+ blank_answer_prompt))].
Proof. by vm_compute. Qed.

(** ** The end of an interview *)

(** C2. A session that was opened on the page is in the COMPLETE phase
    exactly when its index equals the number of its questions and there is
    a question.  From COMPLETE an interaction, whatever the widgets return,
    the submit button included, leaves the conversation, the index and the
    questions as they are and the phase COMPLETE, unless it is the press of
    "Start New Interview", which gives the session of a new visitor. *)
Theorem complete_is_terminal :
  (∀ inputs d,
      let s := session (browse inputs (fresh d)) in
      phase_of s = Some COMPLETE ↔
      question_index s = length (questions s) ∧ 0 < length (questions s))
  ∧ (∀ sv wd w,
        phase_of (session w) = Some COMPLETE →
        let s' := session (interaction sv wd w).2 in
        (same_interview (session w) s' ∧ phase_of s' = Some COMPLETE)
        ∨ (start_new wd = true
           ∧ s' = restarted (session (opened wd w))
           ∧ phase_of s' = Some INTAKE)).
Proof.
  split.
  - intros inputs d s.
    assert (session_ok (λ _, True) s) as [Hlen Hle Hidle Hstarted _].
    { apply (browse_ok (λ _, True)); [done|]. apply fresh_ok. by intros ? ? ? _ _. }
    rewrite phase_complete, Nat.ltb_ge. split.
    + intros (_ & Hqs & Hge). split; [lia|].
      revert Hqs. destruct (questions s); simpl; [done|lia].
    + intros [Heq Hpos]. destruct (interview_started s).
      * split; [done|]. split; [|lia].
        revert Hpos. destruct (questions s); simpl; [lia|done].
      * rewrite Hidle in Hpos by done. simpl in Hpos. lia.
  - intros sv wd w Hphase s'.
    pose proof (script_complete sv wd w Hphase) as Hrun. unfold wp in Hrun.
    assert (same_interview (session w) (session (opened wd w))) as Hsame by done.
    destruct (save_result (session w) (disk w)) as [[e d0]|d'].
    + destruct Hrun as (Hr & Hs & _). left.
      subst s'. rewrite interaction_no_rerun by (by rewrite Hr).
      rewrite Hs. split; [done|]. by rewrite (phase_of_same _ _ Hsame).
    + destruct Hrun as [_ Hrun]. destruct (start_new wd).
      * destruct Hrun as [Hr Hs]. right. split; [done|].
        subst s'. rewrite interaction_rerun by done.
        pose proof (script_intake_idle sv (released wd) (script sv wd w).2)
          as Hagain.
        unfold wp in Hagain. rewrite Hs in Hagain.
        destruct Hagain as (_ & Hs2 & _); [done|by left|].
        rewrite Hs2. unfold opened. simpl. by rewrite Hs.
      * destruct Hrun as [Hr Hs]. left.
        subst s'. rewrite interaction_no_rerun by done.
        rewrite Hs. split; [done|]. by rewrite (phase_of_same _ _ Hsame).
Qed.

(** A finished interview, the submit button pressed on it once more. *)
Lemma complete_is_terminal_witness :
  phase_of (session Demo.done_world) = Some COMPLETE
  ∧ conversation
      (session (interaction Demo.online (Demo.reply Telugu "One more.")
                  Demo.done_world).2)
    = conversation (session Demo.done_world).
Proof.
  split; [reflexivity|].
  destruct (proj2 complete_is_terminal Demo.online
              (Demo.reply Telugu "One more.") Demo.done_world eq_refl)
    as [[(Hc & _) _] | (Hnew & _)].
  - exact Hc.
  - discriminate Hnew.
Defined.

(** ** A tech stack that fails validation *)

(** C9. When the tech stack of a submitted form fails validation,
    [generate_questions] returns the sentinel message alone, and the session
    enters the interview with the sentinel as its only question; one answer
    that is not blank then completes the interview, and the record, with the
    sentinel as question, is in the store under the candidate's email
    (the store being readable and writable). *)
Theorem invalid_stack_sentinel_interview :
  ∀ sv wd sv' wd' w data text,
    interview_started (session w) = false →
    submit_info wd = true →
    PyStr.truthy (full_name wd) = true → PyStr.truthy (email wd) = true →
    PyStr.truthy (phone wd) = true → PyStr.truthy (tech_stack wd) = true →
    validate_tech_stack (tech_stack wd) = false →
    load_from (disk w) = inr data → writable (disk w) = true →
    submit_answer wd' = true → typed_answer wd' = Some text →
    PyStr.truthy (PyStr.strip text) = true →
    let w1 := (interaction sv wd w).2 in
    let w2 := (interaction sv' wd' w1).2 in
    (generate_questions sv (tech_stack wd) (opened wd w)).1
    = Value [sentinel sv wd]
    ∧ session w1 = sentinel_session sv wd
    ∧ questions (session w1) = [sentinel sv wd]
    ∧ phase_of (session w1) = Some INTERVIEWING
    ∧ phase_of (session w2) = Some COMPLETE
    ∧ ∃ label,
        conversation (session w2) = [Exchange (sentinel sv wd) text label]
        ∧ load_from (disk w2)
          = inr (<[email wd :=
                     {| info := entered_profile wd;
                        interview := [Exchange (sentinel sv wd) text label];
                        completed_date := "March 16, 2025" |}]> data).
Proof.
  intros sv wd sv' wd' w data text Hidle Hsubmit Hn He Hp Ht Hinvalid
    Hload Hwritable Hsubmit' Htyped Htext w1 w2.
  (* the form is submitted *)
  pose proof (script_intake_invalid sv wd w Hidle Hsubmit Hn He Hp Ht Hinvalid)
    as Hrun.
  unfold wp in Hrun. destruct Hrun as (Hr & Hs & Hd).
  (* the rerun shows the sentinel as the first question *)
  assert (phase_of (sentinel_session sv wd) = Some INTERVIEWING) as Hphase by done.
  pose proof (script_ask_idle sv (released wd) (script sv wd w).2) as Hrun1.
  unfold wp in Hrun1. rewrite Hs in Hrun1.
  destruct (Hrun1 Hphase (or_introl eq_refl)) as (_ & Hs1 & Hd1). clear Hrun1.
  assert (session w1 = sentinel_session sv wd) as Hw1.
  { subst w1. rewrite interaction_rerun by done. rewrite Hs1.
    unfold opened. simpl. by rewrite Hs. }
  assert (disk w1 = disk w) as Hdisk1.
  { subst w1. rewrite interaction_rerun by done. by rewrite Hd1, Hd. }
  (* the answer is submitted *)
  pose proof (script_ask_answer sv' wd' w1) as Hrun2. unfold wp in Hrun2.
  rewrite Hw1, Htyped in Hrun2.
  destruct (Hrun2 Hphase Hsubmit' Htext) as (Hr2 & (q & label & Hq & Hs2) & Hd2).
  clear Hrun2. injection Hq as <-.
  (* the rerun saves the record *)
  pose proof (script_complete sv' (released wd') (script sv' wd' w1).2) as Hrun3.
  unfold wp in Hrun3. rewrite Hs2, Hd2 in Hrun3.
  unfold opened in Hrun3. rewrite Hw1, Hdisk1 in Hrun3.
  unfold save_result in Hrun3. rewrite Hload in Hrun3. simpl in Hrun3.
  unfold dump_to in Hrun3. rewrite Hwritable in Hrun3.
  destruct (Hrun3 eq_refl) as (Hd3 & _ & Hs3). clear Hrun3.
  assert (w2 = (script sv' (released wd') (script sv' wd' w1).2).2) as Hw2.
  { subst w2. by rewrite interaction_rerun. }
  split.
  { unfold generate_questions. rewrite Hinvalid. simpl.
    unfold mbind, M_bind. by rewrite localized_run. }
  split; [done|]. split; [by rewrite Hw1|]. split; [by rewrite Hw1|].
  rewrite Hw2, Hs3, Hd3, Hs2. unfold opened. cbn [session]. rewrite Hw1.
  split; [done|]. exists label. split; [done|].
  by rewrite (load_from_put _ _ _ Hload).
Qed.

(** "I like cooking" as a tech stack, then "I cook pasta" as an answer. *)
Lemma invalid_stack_sentinel_interview_witness :
  let w2 :=
    browse [(Demo.online, Demo.form Telugu 3 "I like cooking");
            (Demo.online, Demo.reply Telugu "I cook pasta")]
      (fresh Demo.no_file) in
  validate_tech_stack "I like cooking" = false
  ∧ phase_of (session w2) = Some COMPLETE
  ∧ questions (session w2) = ["[te] Please enter a valid tech stack!"].
Proof.
  split; [reflexivity|].
  pose proof (invalid_stack_sentinel_interview
                Demo.online (Demo.form Telugu 3 "I like cooking")
                Demo.online (Demo.reply Telugu "I cook pasta")
                (fresh Demo.no_file) ∅ "I cook pasta"
                eq_refl eq_refl eq_refl eq_refl eq_refl eq_refl eq_refl
                eq_refl eq_refl eq_refl eq_refl eq_refl)
    as (_ & _ & _ & _ & Hcomplete & _).
  split; [exact Hcomplete|]. reflexivity.
Defined.

(** * Further properties *)

(** ** The sentiment adapter *)

(** X1. [analyze_sentiment] calls the scorer once, on the text it is given,
    changes nothing else, and labels by the sign of the polarity: positive
    above zero, negative below, neutral at zero. *)
Theorem analyze_sentiment_by_sign :
  ∀ sv text w,
    analyze_sentiment sv text w
    = (Value (label_of (polarity sv text)), add_log [Called_polarity text] w)
    ∧ (label_of (polarity sv text) = Positive ↔ (0 < polarity sv text)%Q)
    ∧ (label_of (polarity sv text) = Negative ↔ (polarity sv text < 0)%Q)
    ∧ (label_of (polarity sv text) = Neutral ↔ (polarity sv text == 0)%Q).
Proof.
  intros sv text w. split; [done|].
  generalize (polarity sv text). intros p. unfold label_of.
  destruct (Qle_bool p 0) eqn:Hle; simpl.
  - apply Qle_bool_iff in Hle. destruct (Qle_bool 0 p) eqn:Hge; simpl.
    + apply Qle_bool_iff in Hge.
      assert (p == 0)%Q as Hzero by by apply Qle_antisym.
      split; [|split].
      * split; [done|]. intros Hpos. by apply Qlt_not_le in Hpos.
      * split; [done|]. intros Hneg. by apply Qlt_not_le in Hneg.
      * done.
    + assert (p < 0)%Q as Hneg.
      { apply Qnot_le_lt. intros Hge'. apply Qle_bool_iff in Hge'. congruence. }
      split; [|split].
      * split; [done|]. intros Hpos. by apply Qlt_not_le in Hpos.
      * done.
      * split; [done|]. intros Hzero. rewrite Hzero in Hneg.
        by apply Qlt_irrefl in Hneg.
  - assert (0 < p)%Q as Hpos.
    { apply Qnot_le_lt. intros Hle'. apply Qle_bool_iff in Hle'. congruence. }
    split; [|split].
    + done.
    + split; [done|]. intros Hneg. apply Qlt_not_le in Hneg.
      destruct Hneg. by apply Qlt_le_weak.
    + split; [done|]. intros Hzero. rewrite Hzero in Hpos.
      by apply Qlt_irrefl in Hpos.
Qed.

(** ** The form *)

Lemma missing_field_test (wd : widgets) :
  full_name wd = "" ∨ email wd = "" ∨ phone wd = "" ∨ tech_stack wd = "" →
  negb (PyStr.truthy (full_name wd)) || negb (PyStr.truthy (email wd))
  || negb (PyStr.truthy (phone wd)) || negb (PyStr.truthy (tech_stack wd))
  = true.
Proof.
  intros [-> | [-> | [-> | ->]]]; simpl;
    rewrite ?orb_true_r; done.
Qed.

(** X2. A form submitted with an empty name, email, phone or tech stack is
    answered by the warning alone: the handler changes neither session nor
    store, calls neither the generator nor the scorer, and asks for no
    rerun; after the interaction the interview has not started. *)
Theorem incomplete_form_rejected :
  ∀ sv wd w,
    full_name wd = "" ∨ email wd = "" ∨ phone wd = "" ∨ tech_stack wd = "" →
    let lang := preferred_language (session w) in
    on_submit_info sv wd w
    = (Value (),
       add_log (translator_calls missing_fields_prompt lang
                  ++ [Shown (warning (translated sv missing_fields_prompt lang))])
               w)
    ∧ (interview_started (session w) = false →
       let r := interaction sv wd w in
       r.1 ≠ Rerun ∧ same_interview (session w) (session r.2)
       ∧ disk r.2 = disk w).
Proof.
  intros sv wd w Hmissing lang. split.
  - unfold on_submit_info. rewrite (missing_field_test wd Hmissing).
    unfold mbind, M_bind. rewrite localized_run. unfold show, emit.
    by rewrite add_log_add_log.
  - intros Hidle r.
    assert (PyStr.truthy (full_name wd) && PyStr.truthy (email wd)
            && PyStr.truthy (phone wd) && PyStr.truthy (tech_stack wd) = false)
      as Hno.
    { destruct Hmissing as [-> | [-> | [-> | ->]]]; simpl;
        rewrite ?andb_false_r; done. }
    destruct (script_intake_idle sv wd w Hidle (or_intror Hno)) as (Hr & Hs & Hd).
    subst r. rewrite (interaction_no_rerun sv wd w Hr).
    split; [done|]. split; [|done]. by rewrite Hs.
Qed.

Lemma incomplete_form_rejected_witness :
  email Sample.no_email = ""
  ∧ session (on_submit_info Demo.online Sample.no_email (fresh Demo.no_file)).2
    = initial_session.
Proof.
  split; [reflexivity|].
  by rewrite (proj1 (incomplete_form_rejected Demo.online Sample.no_email
                       (fresh Demo.no_file) (or_intror (or_introl eq_refl)))).
Defined.

(** ** The answer handler *)

(** X3. The handler of the submit button, on an answer that is not blank
    and with a question at the index, appends the question with the answer
    exactly as typed (neither trimmed nor translated: the translation to "en"
    is a passthrough) and with the label of the polarity of that text, moves
    the index by one, empties the answer box and asks for a rerun; the scorer
    is the only service called; the store is not touched. *)
Theorem answer_stored_as_typed :
  ∀ sv index w q,
    PyStr.truthy (PyStr.strip (current_answer (session w))) = true →
    questions (session w) !! index = Some q →
    let text := current_answer (session w) in
    on_submit_answer sv index w
    = (Rerun,
       {| session := answered q text (label_of (polarity sv text)) (session w);
          disk := disk w;
          log := log w ++ [Called_polarity text] |}).
Proof.
  intros sv index w q Htext Hq text. subst text.
  unfold on_submit_answer, mbind, M_bind, get_session.
  rewrite Htext. simpl.
  unfold item. rewrite Hq. done.
Qed.

Lemma answer_stored_as_typed_witness :
  conversation
    (session (on_submit_answer Demo.online 0 Sample.typing_world).2)
  = [Exchange "1. What is a list?" "  A sequence. " Neutral].
Proof.
  by rewrite (answer_stored_as_typed Demo.online 0 Sample.typing_world
                "1. What is a list?" eq_refl eq_refl).
Defined.

(** ** The record store, further *)

(** X5. A successful [save_interview] touches one key of the store: the
    records under every other email are as before, the keys of the new store
    are the old ones and the candidate's email, and session and log are
    unchanged. *)
Theorem save_interview_keeps_others :
  ∀ w w1,
    save_interview w = (Value (), w1) →
    ∃ p data data1,
      candidate_info (session w) = Some p
      ∧ load_from (disk w) = inr data
      ∧ load_from (disk w1) = inr data1
      ∧ (∀ key, key ≠ info_email p → data1 !! key = data !! key)
      ∧ dom data1 = {[info_email p]} ∪ dom data
      ∧ session w1 = session w ∧ log w1 = log w.
Proof.
  intros w w1. rewrite save_interview_run. unfold save_result.
  destruct (load_from (disk w)) as [e|data] eqn:Hload; [done|].
  destruct (candidate_info (session w)) as [p|] eqn:Hp; [|done].
  destruct (dump_to _ (disk w)) as [[e d']|d'] eqn:Hdump; [done|].
  intros [= <-].
  exists p, data, (<[info_email p := record_of p (session w)]> data).
  split; [done|]. split; [done|].
  split; [by destruct (dump_to_again _ _ _ _ Hload Hdump)|].
  split; [|split; [apply dom_insert_L | done]].
  intros key Hkey. by apply lookup_insert_ne.
Qed.

(** Alice's record is saved beside Bob's. *)
Lemma save_interview_keeps_others_witness :
  ∃ data1,
    load_from
      (disk (save_interview
               {| session := Demo.done_session; disk := Sample.with_bob;
                  log := [] |}).2) = inr data1
    ∧ data1 !! "b@x.com" = Some Sample.bob.
Proof.
  destruct (save_interview_keeps_others
              {| session := Demo.done_session; disk := Sample.with_bob; log := [] |}
              _ eq_refl)
    as (p & data & data1 & Hp & Hload & Hload1 & Hothers & _).
  exists data1. split; [exact Hload1|].
  injection Hp as <-. injection Hload as <-.
  rewrite Hothers by done. reflexivity.
Defined.

(** ** The admin view *)

Lemma for_each_lines {A} (lines : A → list event) (body : nat → A → M unit)
    (l : list A) :
  (∀ idx x w, body idx x w = (Value (), add_log (lines x) w)) →
  ∀ idx w,
    for_each_from idx l body w = (Value (), add_log (concat (map lines l)) w).
Proof.
  intros Hbody. induction l as [|x l IH]; intros idx w; simpl.
  - unfold mret, M_ret, add_log. destruct w. simpl. by rewrite app_nil_r.
  - unfold mbind, M_bind. rewrite Hbody, IH. by rewrite add_log_add_log.
Qed.

(** X7. The admin view only reads: it changes neither session nor store
    and asks for no rerun.  Unticked, it draws its checkbox and nothing else.
    Ticked, it raises what reading the store raises; on a store without
    records, a missing file included, it writes that no data is available;
    otherwise it writes five lines for each saved candidate, the first with
    the candidate's name and email. *)
Theorem admin_view_reads_only :
  ∀ sv wd w,
    let lang := preferred_language (session w) in
    (∃ r l, admin_view sv wd w = (r, add_log l w) ∧ r ≠ Rerun)
    ∧ (show_admin wd = false →
       admin_view sv wd w = (Value (), add_log (admin_box sv lang) w))
    ∧ (show_admin wd = true → ∀ e, load_from (disk w) = inl e →
       admin_view sv wd w = (Raised e, add_log (admin_box sv lang) w))
    ∧ (show_admin wd = true → load_from (disk w) = inr ∅ →
       admin_view sv wd w
       = (Value (),
          add_log (admin_box sv lang
                     ++ translator_calls no_candidates_message lang
                     ++ [Shown (write (translated sv no_candidates_message lang))])
                  w))
    ∧ (show_admin wd = true → ∀ data, load_from (disk w) = inr data →
       data ≠ ∅ →
       ∃ l, admin_view sv wd w = (Value (), add_log l w)
            ∧ ∀ key r, data !! key = Some r →
                       ∀ line, In line (candidate_lines (key, r)) → In line l).
Proof.
  intros sv wd w lang.
  split; [apply admin_view_quiet|].
  assert (∀ k : M unit,
            (l ← localized sv admin_label; show (checkbox l) ;; k) w
            = k (add_log (admin_box sv lang) w)) as Hbox.
  { intros k. unfold mbind, M_bind. rewrite localized_run. unfold show, emit.
    by rewrite add_log_add_log. }
  unfold admin_view. fold admin_label. rewrite Hbox.
  split; [by intros ->|].
  split; [|split].
  - intros -> e Hload. cbn [when]. unfold mbind, M_bind, load_data.
    cbn [disk add_log]. by rewrite Hload.
  - intros -> Hload. cbn [when]. unfold mbind, M_bind, load_data.
    cbn [disk add_log]. rewrite Hload.
    unfold saved_candidates. rewrite map_to_list_empty. cbn [nonempty].
    fold no_candidates_message.
    unfold mbind, M_bind. rewrite localized_run. unfold show, emit.
    by rewrite !add_log_add_log.
  - intros -> data Hload Hdata. cbn [when]. unfold mbind at 1, M_bind at 1, load_data.
    cbn [disk add_log]. rewrite Hload.
    unfold saved_candidates.
    destruct (map_to_list data) as [|entry entries] eqn:Hlist.
    { by apply map_to_list_empty_iff in Hlist. }
    cbn [nonempty]. unfold mbind at 1 2, M_bind at 1 2.
    rewrite localized_run. unfold show at 1, emit at 1.
    match goal with
    | |- context [for_each_from _ _ ?body] =>
        assert (∀ idx x w0,
                  body idx x w0 = (Value (), add_log (candidate_lines x) w0))
          as Hbody
    end.
    { intros idx x w0.
      unfold mbind, M_bind, show, emit, candidate_lines, add_log. simpl.
      by rewrite <- !app_assoc. }
    rewrite (for_each_lines candidate_lines _ _ Hbody).
    rewrite !add_log_add_log. eexists. split; [reflexivity|].
    intros key r Hkey line Hline.
    apply in_or_app. right. apply in_or_app. right. apply in_or_app. right.
    apply in_concat. exists (candidate_lines (key, r)). split; [|done].
    apply in_map. rewrite <- Hlist.
    apply list_elem_of_In, elem_of_map_to_list, Hkey.
Qed.

Lemma admin_view_reads_only_witness :
  In (Shown (write "**Candidate:** Bob (b@x.com)"))
     (log (admin_view Demo.online Sample.admin
             {| session := initial_session; disk := Sample.with_bob; log := [] |}).2).
Proof.
  destruct (proj2 (proj2 (proj2 (proj2
              (admin_view_reads_only Demo.online Sample.admin
                 {| session := initial_session; disk := Sample.with_bob;
                    log := [] |})))) eq_refl
              {[ "b@x.com" := Sample.bob ]} eq_refl)
    as (l & Hrun & Hlines).
  { by apply insert_non_empty. }
  rewrite Hrun. simpl.
  apply (Hlines "b@x.com" Sample.bob); [reflexivity | by left].
Defined.

(** ** What one execution keeps *)

Lemma wp_script (sv : services) (wd : widgets)
    (Q : outcome () → world → Prop) (w : world) :
  wp (page_top wd ;;
      match phase_of (session w) with
      | Some INTAKE => gather_candidate_info sv wd
      | Some INTERVIEWING => ask_question sv wd (question_index (session w))
      | Some COMPLETE => complete_interview sv wd
      | None => mret ()
      end ;;
      admin_view sv wd) Q w →
  wp (script sv wd) Q w.
Proof. unfold wp. by rewrite script_dispatch. Qed.

(** The script up to the part that the phase selects. *)
Ltac run_to_part := apply wp_script; do 2 wp_step; apply wp_bind.

Ltac run_admin_view :=
  apply wp_quiet; [apply admin_view_quiet|]; intros ? ? ?; wp_simpl.

Section Frames.

Variables (sv : services) (wd : widgets).

Lemma required_of_test :
  negb (PyStr.truthy (full_name wd)) || negb (PyStr.truthy (email wd))
  || negb (PyStr.truthy (phone wd)) || negb (PyStr.truthy (tech_stack wd))
  = false →
  required_ok (entered_profile wd).
Proof.
  unfold required_ok, entered_profile. simpl.
  by destruct (PyStr.truthy (full_name wd)), (PyStr.truthy (email wd)),
    (PyStr.truthy (phone wd)), (PyStr.truthy (tech_stack wd)).
Qed.

(** The form: the store and the display language stay; an interview that
    starts has the profile of the form. *)
Lemma gather_frame (w : world) :
  interview_started (session w) = false →
  wp (gather_candidate_info sv wd)
     (λ r w', disk w' = disk w
              ∧ preferred_language (session w') = preferred_language (session w)
              ∧ profile_inv (session w')) w.
Proof.
  intros Hidle. unfold gather_candidate_info.
  apply wp_bind, wp_logs_only; [apply candidate_info_form_logs|].
  intros [] l. wp_simpl.
  assert (profile_inv (session w)) as Hinv.
  { intros Hstarted. congruence. }
  destruct (submit_info wd); cbn [when]; [|by wp_steps].
  unfold on_submit_info.
  destruct (_ || _) eqn:Htest; wp_steps; [done|].
  apply required_of_test in Htest.
  assert (∀ qs, profile_inv
            (set_current_answer ""
               (set_interview_started true
                  (set_conversation []
                     (set_question_index 0
                        (set_questions qs
                           (set_candidate_info (Some (entered_profile wd))
                              (session w)))))))) as Hstart.
  { intros qs _. by exists (entered_profile wd). }
  assert (profile_inv (set_candidate_info (Some (entered_profile wd)) (session w)))
    as Hprofile.
  { intros Hstarted. simpl in Hstarted. congruence. }
  unfold generate_questions. destruct (negb _); wp_steps; [done|].
  destruct (invoke sv _); wp_steps; [|done].
  destruct (nonempty _); by wp_steps.
Qed.

(** A question: the store, the display language and the profile stay. *)
Lemma ask_frame (w : world) (index : nat) :
  wp (ask_question sv wd index)
     (λ r w', disk w' = disk w
              ∧ preferred_language (session w') = preferred_language (session w)
              ∧ (profile_inv (session w) → profile_inv (session w'))) w.
Proof.
  unfold ask_question, item. wp_steps.
  destruct (questions (session w) !! index) as [q|]; wp_steps; [|done].
  destruct (submit_answer wd); cbn [when]; [|by wp_steps].
  unfold on_submit_answer, item. wp_steps.
  destruct (negb _); wp_steps; [done|].
  destruct (questions (session w) !! index); by wp_steps.
Qed.

(** The end of the interview: the display language stays, and a session
    that is restarted has no interview. *)
Lemma complete_frame (w : world) :
  wp (complete_interview sv wd)
     (λ r w', preferred_language (session w') = preferred_language (session w)
              ∧ (profile_inv (session w) → profile_inv (session w'))) w.
Proof.
  unfold complete_interview. apply wp_bind, wp_save_interview.
  destruct (save_result (session w) (disk w)) as [[e d0]|d']; wp_simpl; [done|].
  apply wp_bind, wp_logs_only; [apply show_responses_logs|].
  intros [] l. wp_simpl. unfold restart_option. wp_steps.
  destruct (start_new wd); cbn [when]; wp_steps; [|done].
  split; [done|]. intros _ Hstarted. discriminate Hstarted.
Qed.

(** One execution of the script. *)
Lemma script_frame (w : world) :
  wp (script sv wd)
     (λ r w', preferred_language (session w') = lang_options (selected_lang wd)
              ∧ (profile_inv (session w) → profile_inv (session w'))
              ∧ (phase_of (session w) ≠ Some COMPLETE → disk w' = disk w)) w.
Proof.
  run_to_part.
  destruct (phase_of (session w)) as [[| |]|] eqn:Hphase.
  - apply phase_intake in Hphase.
    eapply wp_mono; [apply (gather_frame (opened wd w)), Hphase|].
    intros [[]| |e] w' (Hd & Hl & Hp); wp_simpl; [run_admin_view|..];
      (split; [exact Hl|]; split; [done|]; intros _; exact Hd).
  - eapply wp_mono; [apply (ask_frame (opened wd w))|].
    intros [[]| |e] w' (Hd & Hl & Hp); wp_simpl; [run_admin_view|..];
      (split; [exact Hl|]; split; [exact Hp|]; intros _; exact Hd).
  - eapply wp_mono; [apply (complete_frame (opened wd w))|].
    intros [[]| |e] w' (Hl & Hp); wp_simpl; [run_admin_view|..];
      (split; [exact Hl|]; split; [exact Hp|]; by intros []).
  - wp_steps. by run_admin_view.
Qed.

End Frames.

(** X8. The display language of the session is the one selected in the
    current execution: whatever the session held and whatever else happens,
    after an execution of the script, and after a whole interaction,
    [preferred_language] is the code of the language of the selector. *)
Theorem display_language_follows_selection :
  ∀ sv wd w,
    preferred_language (session (script sv wd w).2)
    = lang_options (selected_lang wd)
    ∧ preferred_language (session (interaction sv wd w).2)
      = lang_options (selected_lang wd).
Proof.
  intros sv wd w.
  destruct (script_frame sv wd w) as (Hl & _).
  split; [exact Hl|].
  unfold interaction.
  destruct (script sv wd w) as [[[]| |e] w1]; try exact Hl.
  by destruct (script_frame sv (released wd) w1) as (Hl1 & _).
Qed.

(** X9. Nothing is written before the interview is complete: an execution
    of the script that starts in another phase than COMPLETE leaves the
    store as it was; so does a whole interaction, unless the rerun that it
    starts finds the interview complete. *)
Theorem store_written_only_when_complete :
  ∀ sv wd w,
    phase_of (session w) ≠ Some COMPLETE →
    disk (script sv wd w).2 = disk w
    ∧ (phase_of (session (script sv wd w).2) ≠ Some COMPLETE →
       disk (interaction sv wd w).2 = disk w).
Proof.
  intros sv wd w Hphase.
  destruct (script_frame sv wd w) as (_ & _ & Hd). specialize (Hd Hphase).
  split; [exact Hd|]. intros Hphase1.
  unfold interaction.
  destruct (script sv wd w) as [[[]| |e] w1]; try exact Hd.
  destruct (script_frame sv (released wd) w1) as (_ & _ & Hd1).
  simpl in *. by rewrite Hd1.
Qed.

(** The form is submitted: the interview starts, the store has no file yet. *)
Lemma store_written_only_when_complete_witness :
  phase_of (session (fresh Demo.no_file)) ≠ Some COMPLETE
  ∧ disk (script Demo.online (Demo.form English 3 "Python, SQL")
            (fresh Demo.no_file)).2
    = Demo.no_file.
Proof.
  assert (phase_of (session (fresh Demo.no_file)) ≠ Some COMPLETE) as Hphase
    by done.
  split; [exact Hphase|].
  exact (proj1 (store_written_only_when_complete Demo.online
                  (Demo.form English 3 "Python, SQL") (fresh Demo.no_file)
                  Hphase)).
Defined.

Lemma browse_profile_inv (inputs : list (services * widgets)) (w : world) :
  profile_inv (session w) → profile_inv (session (browse inputs w)).
Proof.
  revert w. induction inputs as [|[sv wd] inputs IH]; intros w Hw; [done|].
  simpl. apply IH. unfold interaction.
  destruct (script_frame sv wd w) as (_ & Hp & _). specialize (Hp Hw).
  destruct (script sv wd w) as [[[]| |e] w1]; try exact Hp.
  destruct (script_frame sv (released wd) w1) as (_ & Hp1 & _). by apply Hp1.
Qed.

(** X10. In every session opened on the page, a started interview has a
    profile whose name, email, phone and tech stack are not empty; so the
    lookup of the email at line 168 does not raise [KeyError] when the
    interview is complete, and the key of the record is not the empty
    string. *)
Theorem started_interview_has_profile :
  ∀ (inputs : list (services * widgets)) (d : storage),
    let w := browse inputs (fresh d) in
    (interview_started (session w) = true →
     ∃ p, candidate_info (session w) = Some p
          ∧ info_name p ≠ "" ∧ info_email p ≠ "" ∧ info_phone p ≠ ""
          ∧ info_tech_stack p ≠ "")
    ∧ (phase_of (session w) = Some COMPLETE →
       (save_interview w).1 ≠ Raised KeyError).
Proof.
  intros inputs d w.
  assert (profile_inv (session w)) as Hinv.
  { apply browse_profile_inv. intros Hstarted. discriminate Hstarted. }
  split.
  - intros Hstarted. destruct (Hinv Hstarted) as (p & Hp & Hn & He & Hph & Ht).
    exists p. split; [done|].
    repeat split; intros Heq; rewrite Heq in *; discriminate.
  - intros (Hstarted & _)%phase_complete.
    destruct (Hinv Hstarted) as (p & Hp & _).
    rewrite save_interview_run. unfold save_result, load_from, dump_to.
    rewrite Hp.
    destruct (data_file (disk w)) as [[| | |]|]; try done;
      (destruct (writable (disk w)); [done|]; by destruct (cut_short (disk w))).
Qed.

(** ** A submitted form *)

Section Intake.

Variables (sv : services) (wd : widgets).

Lemma generated_nonempty (lang response : string) :
  nonempty (generated sv lang response) = true
  ∧ 1 ≤ length (generated sv lang response) ≤ 5.
Proof.
  unfold generated.
  destruct (nonempty (usable_lines response)) eqn:Hlines; [|simpl; lia].
  split; [|by apply length_firstn_nonempty].
  by destruct (usable_lines response).
Qed.

(** The form is submitted complete, with a tech stack that passes. *)
Lemma script_intake_valid (w : world) :
  interview_started (session w) = false →
  submit_info wd = true →
  required_ok (entered_profile wd) →
  validate_tech_stack (tech_stack wd) = true →
  wp (script sv wd)
     (λ r w',
        match invoke sv (prompt_for (tech_stack wd)) with
        | Some response =>
            r = Rerun
            ∧ session w'
              = started_session wd
                  (generated sv (lang_options (selected_lang wd)) response)
        | None =>
            r = Raised ServiceError
            ∧ session w'
              = set_candidate_info (Some (entered_profile wd))
                  (session (opened wd w))
        end
        ∧ disk w' = disk w) w.
Proof.
  intros Hidle Hsubmit (Hn & He & Hp & Ht) Hvalid. simpl in Hn, He, Hp, Ht.
  apply wp_script. do 2 wp_step. apply wp_bind.
  apply phase_intake in Hidle as Hphase. rewrite Hphase.
  unfold gather_candidate_info.
  apply wp_bind, wp_logs_only; [apply candidate_info_form_logs|].
  intros [] l. wp_simpl. rewrite Hsubmit. cbn [when].
  unfold on_submit_info. rewrite Hn, He, Hp, Ht. simpl.
  unfold generate_questions. rewrite Hvalid. simpl. wp_steps.
  destruct (invoke sv _) as [response|]; wp_steps; [|done].
  rewrite strip_filter_usable. fold (usable_lines response).
  unfold generated, started_session.
  destruct (nonempty (usable_lines response)); by wp_steps.
Qed.

End Intake.

(** X11. A complete form with a tech stack that passes validation, and a
    generator that answers, start the interview: the questions are the first
    five usable lines of the response (or the fallback message alone), the
    index is 0, the conversation empty, the profile the one entered, the
    phase INTERVIEWING; the store is not touched. *)
Theorem valid_form_starts_interview :
  ∀ sv wd w response,
    interview_started (session w) = false →
    submit_info wd = true →
    full_name wd ≠ "" → email wd ≠ "" → phone wd ≠ "" → tech_stack wd ≠ "" →
    validate_tech_stack (tech_stack wd) = true →
    invoke sv (prompt_for (tech_stack wd)) = Some response →
    let r := interaction sv wd w in
    session r.2
    = started_session wd
        (generated sv (lang_options (selected_lang wd)) response)
    ∧ 1 ≤ length (questions (session r.2)) ≤ 5
    ∧ phase_of (session r.2) = Some INTERVIEWING
    ∧ disk r.2 = disk w.
Proof.
  intros sv wd w response Hidle Hsubmit Hn He Hp Ht Hvalid Hresponse r.
  assert (required_ok (entered_profile wd)) as Hrequired.
  { unfold required_ok. simpl.
    by destruct (full_name wd), (email wd), (phone wd), (tech_stack wd). }
  pose proof (script_intake_valid sv wd w Hidle Hsubmit Hrequired Hvalid) as Hrun.
  unfold wp in Hrun. rewrite Hresponse in Hrun.
  destruct Hrun as ((Hr & Hs) & Hd).
  set (qs := generated sv (lang_options (selected_lang wd)) response) in *.
  destruct (generated_nonempty sv (lang_options (selected_lang wd)) response)
    as (Hqs & Hlen). fold qs in Hqs, Hlen.
  assert (phase_of (started_session wd qs) = Some INTERVIEWING) as Hphase.
  { apply phase_interviewing. simpl. split; [done|]. split; [done|].
    apply Nat.ltb_lt. lia. }
  pose proof (script_ask_idle sv (released wd) (script sv wd w).2) as Hrun1.
  unfold wp in Hrun1. rewrite Hs in Hrun1.
  destruct (Hrun1 Hphase (or_introl eq_refl)) as (_ & Hs1 & Hd1).
  assert (session r.2 = started_session wd qs) as Hfinal.
  { subst r. rewrite interaction_rerun by done. rewrite Hs1.
    unfold opened. simpl. by rewrite Hs. }
  rewrite Hfinal. split; [done|]. split; [done|]. split; [done|].
  subst r. rewrite interaction_rerun by done. by rewrite Hd1.
Qed.

Lemma valid_form_starts_interview_witness :
  questions
    (session (interaction Demo.online (Demo.form Telugu 3 "Python, SQL")
                (fresh Demo.no_file)).2)
  = ["1. What is a list?"; "2. What is a join?"].
Proof.
  rewrite (proj1 (valid_form_starts_interview
                    Demo.online (Demo.form Telugu 3 "Python, SQL")
                    (fresh Demo.no_file) _ eq_refl eq_refl
                    ltac:(done) ltac:(done) ltac:(done) ltac:(done)
                    eq_refl eq_refl)).
  reflexivity.
Defined.

(** X12. When the generator raises, the submitted form leaves a session
    that has the profile but no interview: the exception ends the
    interaction after line 115 and before line 124, so [candidate_info] is
    set while the questions, the index and [interview_started] are as before;
    the store is not touched and the form is shown again. *)
Theorem generator_failure_keeps_intake :
  ∀ sv wd w,
    interview_started (session w) = false →
    submit_info wd = true →
    full_name wd ≠ "" → email wd ≠ "" → phone wd ≠ "" → tech_stack wd ≠ "" →
    validate_tech_stack (tech_stack wd) = true →
    invoke sv (prompt_for (tech_stack wd)) = None →
    let r := interaction sv wd w in
    r.1 = Raised ServiceError
    ∧ session r.2
      = set_candidate_info (Some (entered_profile wd)) (session (opened wd w))
    ∧ phase_of (session r.2) = Some INTAKE
    ∧ disk r.2 = disk w.
Proof.
  intros sv wd w Hidle Hsubmit Hn He Hp Ht Hvalid Hdown r.
  assert (required_ok (entered_profile wd)) as Hrequired.
  { unfold required_ok. simpl.
    by destruct (full_name wd), (email wd), (phone wd), (tech_stack wd). }
  pose proof (script_intake_valid sv wd w Hidle Hsubmit Hrequired Hvalid) as Hrun.
  unfold wp in Hrun. rewrite Hdown in Hrun.
  destruct Hrun as ((Hr & Hs) & Hd).
  subst r. rewrite interaction_no_rerun by (by rewrite Hr).
  split; [done|]. split; [done|]. split; [|done].
  rewrite Hs. apply phase_intake. exact Hidle.
Qed.

Lemma generator_failure_keeps_intake_witness :
  let r := interaction Demo.offline (Demo.form English 3 "Python, SQL")
             (fresh Demo.no_file) in
  r.1 = Raised ServiceError
  ∧ candidate_info (session r.2)
    = Some (entered_profile (Demo.form English 3 "Python, SQL"))
  ∧ interview_started (session r.2) = false.
Proof.
  destruct (generator_failure_keeps_intake
              Demo.offline (Demo.form English 3 "Python, SQL")
              (fresh Demo.no_file) eq_refl eq_refl
              ltac:(done) ltac:(done) ltac:(done) ltac:(done)
              eq_refl eq_refl)
    as (Hr & Hs & _).
  split; [exact Hr|]. by rewrite Hs.
Defined.

(** ** Answering the questions *)

(** One submitted answer, over the whole interaction: it is recorded, and
    the rerun shows the next question or ends the interview. *)
Lemma interaction_answer (sv : services) (wd : widgets) (w : world)
    (text : string) :
  phase_of (session w) = Some INTERVIEWING →
  submit_answer wd = true → typed_answer wd = Some text →
  PyStr.truthy (PyStr.strip text) = true →
  ∃ q label,
    questions (session w) !! question_index (session w) = Some q
    ∧ session (interaction sv wd w).2
      = answered q text label (session (opened wd w)).
Proof.
  intros Hphase Hsubmit Htyped Htext.
  pose proof (script_ask_answer sv wd w Hphase Hsubmit) as Hrun.
  unfold wp in Hrun. rewrite Htyped in Hrun.
  destruct (Hrun Htext) as (Hr & (q & label & Hq & Hs) & Hd). clear Hrun.
  exists q, label. split; [exact Hq|].
  rewrite interaction_rerun by done.
  set (w1 := (script sv wd w).2) in *.
  apply phase_interviewing in Hphase as (Hstarted & Hqs & Hlt).
  assert (interview_started (session w1) = true
          ∧ nonempty (questions (session w1)) = true) as [Hstarted1 Hqs1].
  { by rewrite Hs. }
  destruct (question_index (session w1) <? length (questions (session w1)))
    eqn:Hlt1.
  - assert (phase_of (session w1) = Some INTERVIEWING) as Hphase1.
    { by apply phase_interviewing. }
    destruct (script_ask_idle sv (released wd) w1 Hphase1 (or_introl eq_refl))
      as (_ & Hs1 & _).
    rewrite Hs1. unfold opened. simpl. by rewrite Hs.
  - assert (phase_of (session w1) = Some COMPLETE) as Hphase1.
    { by apply phase_complete. }
    pose proof (script_complete sv (released wd) w1 Hphase1) as Hrun1.
    unfold wp in Hrun1.
    assert (session (script sv (released wd) w1).2
            = session (opened (released wd) w1)) as Hs1.
    { destruct (save_result (session w1) (disk w1)) as [[e d0]|d'].
      - by destruct Hrun1 as (_ & Hs1 & _).
      - by destruct Hrun1 as (_ & _ & Hs1). }
    rewrite Hs1. unfold opened. simpl. by rewrite Hs.
Qed.

Lemma answered_fields (q text : string) (label : sentiment_label)
    (s : session_state) :
  (List.map question (conversation (answered q text label s))
   = List.map question (conversation s) ++ [q])
  ∧ (List.map answer (conversation (answered q text label s))
     = List.map answer (conversation s) ++ [text]).
Proof. unfold answered. simpl. by rewrite !List.map_app. Qed.

Lemma take_drop_step {A} (l : list A) (i n : nat) (x : A) :
  l !! i = Some x →
  take (S n) (drop i l) = x :: take n (drop (S i) l).
Proof. intros Hx. by rewrite (drop_S l x i Hx). Qed.

(** X13. Answers are recorded in the order of the questions.  From a
    session in the INTERVIEWING phase, [n] interactions that each submit an
    answer that is not blank, with [n] at most the number of questions left,
    move the index by [n] and append to the conversation the next [n]
    questions, in order, each with the answer submitted for it; the
    questions do not change; and the session is COMPLETE exactly when no
    question is left. *)
Theorem answers_follow_questions :
  ∀ (inputs : list (services * widgets)) (texts : list string) (w : world),
    phase_of (session w) = Some INTERVIEWING →
    answers_with inputs texts →
    length texts
    ≤ length (questions (session w)) - question_index (session w) →
    let s := session w in
    let s' := session (browse inputs w) in
    questions s' = questions s
    ∧ question_index s' = question_index s + length texts
    ∧ List.map question (conversation s')
      = List.map question (conversation s)
          ++ take (length texts) (drop (question_index s) (questions s))
    ∧ List.map answer (conversation s')
      = List.map answer (conversation s) ++ texts
    ∧ (phase_of s' = Some COMPLETE ↔
       length texts = length (questions s) - question_index s).
Proof.
  intros inputs texts w Hphase Hinputs. revert w Hphase.
  induction Hinputs as [|[sv wd] text inputs texts (Hsubmit & Htyped & Htext) Htail IH];
    intros w Hphase Hlen s s'.
  - subst s s'. simpl. rewrite !app_nil_r, Nat.add_0_r.
    split; [done|]. split; [done|]. split; [done|]. split; [done|].
    rewrite Hphase.
    apply phase_interviewing in Hphase as (_ & _ & Hlt%Nat.ltb_lt).
    split; [done|]. lia.
  - simpl in Hlen.
    destruct (interaction_answer sv wd w text Hphase Hsubmit Htyped Htext)
      as (q & label & Hq & Hs1).
    set (w1 := (interaction sv wd w).2) in *.
    assert (questions (session w1) = questions (session w)) as Hqs1
      by by rewrite Hs1.
    assert (question_index (session w1) = question_index (session w) + 1)
      as Hidx1 by by rewrite Hs1.
    destruct (answered_fields q text label (session (opened wd w)))
      as [Hmq Hma].
    rewrite <- Hs1 in Hmq, Hma.
    change (conversation (session (opened wd w)))
      with (conversation (session w)) in Hmq, Hma.
    apply phase_interviewing in Hphase as Hthree.
    destruct Hthree as (Hstarted & Hnonempty & Hlt%Nat.ltb_lt).
    assert (interview_started (session w1) = true) as Hstarted1
      by by rewrite Hs1.
    subst s s'. cbn [browse]. fold w1. simpl (length (text :: texts)).
    destruct (decide (question_index (session w1)
                      < length (questions (session w1)))) as [Hmore|Hdone].
    + assert (phase_of (session w1) = Some INTERVIEWING) as Hphase1.
      { apply phase_interviewing. rewrite Hqs1. split; [done|].
        split; [done|]. apply Nat.ltb_lt. by rewrite <- Hqs1. }
      destruct (IH w1 Hphase1) as (Hqs & Hidx & Hcq & Hca & Hcomplete).
      { rewrite Hqs1, Hidx1. lia. }
      rewrite Hqs, Hidx, Hcq, Hca, Hcomplete, Hqs1, Hidx1, Hmq, Hma.
      rewrite (take_drop_step _ _ _ _ Hq), <- !app_assoc.
      replace (question_index (session w) + 1) with (S (question_index (session w)))
        by lia.
      split; [done|]. split; [lia|]. split; [done|]. split; [done|]. lia.
    + assert (texts = []) as ->.
      { rewrite Hqs1, Hidx1 in Hdone. destruct texts; [done|simpl in Hlen; lia]. }
      inversion Htail; subst. simpl.
      rewrite Hqs1, Hidx1, Hmq, Hma, (take_drop_step _ _ _ _ Hq). simpl.
      split; [done|]. split; [done|]. split; [done|]. split; [done|].
      rewrite Hqs1, Hidx1 in Hdone.
      split; [lia|]. intros _. apply phase_complete. rewrite Hqs1, Hidx1.
      split; [done|]. split; [done|]. apply Nat.ltb_ge. lia.
Qed.

(** Both questions of the running example are answered. *)
Lemma answers_follow_questions_witness :
  let s' :=
    session (browse [(Demo.online, Demo.reply Telugu "A sequence.");
                     (Demo.online, Demo.reply Telugu "A combination.")]
               Demo.blank_world) in
  phase_of s' = Some COMPLETE
  ∧ List.map answer (conversation s') = ["A sequence."; "A combination."].
Proof.
  assert (answers_with [(Demo.online, Demo.reply Telugu "A sequence.");
                        (Demo.online, Demo.reply Telugu "A combination.")]
            ["A sequence."; "A combination."]) as Hinputs.
  { repeat constructor. }
  destruct (answers_follow_questions _ _ Demo.blank_world eq_refl Hinputs)
    as (_ & _ & _ & Hanswers & Hcomplete); [simpl; lia|].
  split; [by apply Hcomplete | exact Hanswers].
Defined.

(** ** The end of an interview, further *)

Lemma save_result_language (lang : string) (s : session_state) (d : storage) :
  save_result (set_preferred_language lang s) d = save_result s d.
Proof. done. Qed.

Lemma save_result_again (s : session_state) (d d' : storage) :
  save_result s d = inr d' → save_result s d' = inr d'.
Proof.
  unfold save_result.
  destruct (load_from d) as [e|data] eqn:Hload; [done|].
  destruct (candidate_info s) as [p|]; [|done].
  intros Hdump. destruct (dump_to_again _ _ _ _ Hload Hdump) as [-> Hdump1].
  by rewrite insert_insert_eq.
Qed.

(** A save that failed fails again on the store that it left. *)
Lemma save_result_failed_again (s : session_state) (d d' : storage) (e : exn) :
  save_result s d = inl (e, d') → ∃ e', save_result s d' = inl (e', d').
Proof.
  unfold save_result.
  destruct (load_from d) as [e0|data] eqn:Hload.
  { intros [= <- <-]. exists e0. by rewrite Hload. }
  destruct (candidate_info s) as [p|].
  2:{ intros [= <- <-]. exists KeyError. by rewrite Hload. }
  unfold dump_to. destruct (writable d) eqn:Hw; [done|].
  destruct (cut_short d) as [raw|] eqn:Hcut; intros [= <- <-].
  - exists JSONDecodeError. by rewrite (load_from_put _ _ _ Hload).
  - exists OSError. by rewrite Hload, Hw, Hcut.
Qed.

Lemma save_interview_raised (w : world) (e : exn) :
  (save_interview w).1 = Raised e ↔
  ∃ d', save_result (session w) (disk w) = inl (e, d').
Proof.
  rewrite save_interview_run.
  destruct (save_result (session w) (disk w)) as [[e0 d0]|d0]; simpl; split.
  - intros [= <-]. by exists d0.
  - by intros (d' & [= <- _]).
  - done.
  - by intros (d' & ?).
Qed.

Lemma save_interview_returned (w : world) :
  (save_interview w).1 = Value () →
  save_result (session w) (disk w) = inr (disk (save_interview w).2).
Proof.
  rewrite save_interview_run.
  by destruct (save_result (session w) (disk w)) as [[e d0]|d'].
Qed.

Lemma save_interview_disk (w : world) :
  disk (save_interview w).2
  = match save_result (session w) (disk w) with
    | inl (_, d') | inr d' => d'
    end.
Proof.
  rewrite save_interview_run.
  by destruct (save_result (session w) (disk w)) as [[e d0]|d'].
Qed.

(** The script never writes a store that it cannot load. *)
Lemma script_keeps_broken_store (sv : services) (wd : widgets) (w : world)
    (e : exn) :
  load_from (disk w) = inl e → disk (script sv wd w).2 = disk w.
Proof.
  intros Hload.
  destruct (phase_of (session w)) as [[| |]|] eqn:Hphase.
  3:{ pose proof (script_complete sv wd w Hphase) as Hrun. unfold wp in Hrun.
      unfold save_result in Hrun. rewrite Hload in Hrun.
      by destruct Hrun as (_ & _ & Hd). }
  all: destruct (script_frame sv wd w) as (_ & _ & Hd); apply Hd;
    by rewrite Hphase.
Qed.

Lemma interaction_keeps_broken_store (sv : services) (wd : widgets)
    (w : world) (e : exn) :
  load_from (disk w) = inl e → disk (interaction sv wd w).2 = disk w.
Proof.
  intros Hload. pose proof (script_keeps_broken_store sv wd w e Hload) as Hd.
  unfold interaction.
  destruct (script sv wd w) as [[[]| |e'] w1]; try exact Hd.
  simpl in Hd. rewrite <- Hd in Hload.
  rewrite (script_keeps_broken_store sv (released wd) w1 e Hload). exact Hd.
Qed.

Lemma browse_keeps_broken_store (inputs : list (services * widgets))
    (w : world) (e : exn) :
  load_from (disk w) = inl e → disk (browse inputs w) = disk w.
Proof.
  revert w. induction inputs as [|[sv wd] inputs IH]; intros w Hload; [done|].
  pose proof (interaction_keeps_broken_store sv wd w e Hload) as Hd.
  simpl. rewrite IH; [exact Hd | by rewrite Hd].
Qed.

(** X6. What a failed [save_interview] leaves.  It raises the exception
    of reading the store, or [KeyError] when the session has no profile, or
    [OSError] when the store cannot be written; session and log are as they
    were.  The store is as it was, unless the write got as far as opening the
    file: then the file holds the part that was written in place of the
    records it had, and these are lost for good: whatever the interactions
    that follow, the store stays as the failure left it, and loading it
    raises [JSONDecodeError]. *)
Theorem save_interview_failures :
  ∀ w e,
    (save_interview w).1 = Raised e →
    let w1 := (save_interview w).2 in
    session w1 = session w ∧ log w1 = log w
    ∧ (load_from (disk w) = inl e
       ∨ (e = KeyError ∧ candidate_info (session w) = None)
       ∨ (e = OSError ∧ writable (disk w) = false))
    ∧ match load_from (disk w), candidate_info (session w),
            cut_short (disk w) with
      | inr _, Some _, Some raw =>
          data_file (disk w1) = Some (Malformed raw)
          ∧ ∀ inputs,
              disk (browse inputs w1) = disk w1
              ∧ (load_data (browse inputs w1)).1 = Raised JSONDecodeError
      | _, _, _ => disk w1 = disk w
      end.
Proof.
  intros w e Hraised w1. subst w1. revert Hraised.
  rewrite save_interview_run. unfold save_result.
  destruct (load_from (disk w)) as [e0|data] eqn:Hload.
  { intros [= <-]. cbn [fst snd session disk log]. repeat split; auto. }
  destruct (candidate_info (session w)) as [p|].
  2:{ intros [= <-]. cbn [fst snd session disk log]. repeat split; auto. }
  unfold dump_to. destruct (writable (disk w)); [done|].
  destruct (cut_short (disk w)) as [raw|]; intros [= <-];
    cbn [fst snd session disk log]; (split; [done|]; split; [done|]);
    (split; [auto|]); [|done].
  assert (load_from (put (Malformed raw) (disk w)) = inl JSONDecodeError)
    as Hbroken by (by rewrite (load_from_put _ _ _ Hload)).
  split.
  { revert Hload. unfold load_from, put. cbn [data_file].
    by destruct (data_file (disk w)) as [[| | |]|]. }
  intros inputs.
  match goal with
  | |- context [browse inputs ?w0] =>
      pose proof (browse_keeps_broken_store inputs w0 JSONDecodeError Hbroken)
        as Hd
  end.
  split; [exact Hd|]. rewrite load_data_run, Hd. cbn [fst disk].
  by rewrite Hbroken.
Qed.

(** Alice's interview is saved to Bob's store on a disk with no room left:
    Bob's record is gone. *)
Lemma save_interview_failures_witness :
  let w := {| session := Demo.done_session; disk := Sample.full; log := [] |} in
  (save_interview w).1 = Raised OSError
  ∧ load_from (disk w) = inr {[ "b@x.com" := Sample.bob ]}
  ∧ data_file (disk (save_interview w).2) = Some (Malformed "{")
  ∧ (load_data (save_interview w).2).1 = Raised JSONDecodeError.
Proof.
  assert ((save_interview
             {| session := Demo.done_session; disk := Sample.full; log := [] |}).1
          = Raised OSError) as Hraised by reflexivity.
  destruct (save_interview_failures _ _ Hraised) as (_ & _ & _ & Hcut & Hlost).
  split; [exact Hraised|]. split; [reflexivity|]. split; [exact Hcut|].
  exact (proj2 (Hlost [])).
Defined.

(** X14. A failed save keeps a finished interview from being left: when
    [save_interview] raises, the interaction ends on that exception before
    the restart button is reached, so even a press of "Start New Interview"
    leaves the session in the COMPLETE phase with its conversation.  The
    store is as the failed save left it, and the next interaction, whatever
    it is, ends on an exception as well. *)
Theorem failed_save_blocks_restart :
  ∀ sv wd w e,
    phase_of (session w) = Some COMPLETE →
    (save_interview w).1 = Raised e →
    let r := interaction sv wd w in
    r.1 = Raised e
    ∧ session r.2 = session (opened wd w)
    ∧ phase_of (session r.2) = Some COMPLETE
    ∧ disk r.2 = disk (save_interview w).2
    ∧ ∀ sv' wd', ∃ e', (interaction sv' wd' r.2).1 = Raised e'.
Proof.
  intros sv wd w e Hphase Hraised r.
  pose proof (save_interview_disk w) as Hdisk.
  apply save_interview_raised in Hraised as [d' Hsave].
  rewrite Hsave in Hdisk.
  pose proof (script_complete sv wd w Hphase) as Hrun. unfold wp in Hrun.
  rewrite Hsave in Hrun. destruct Hrun as (Hr & Hs & Hd).
  assert (r = script sv wd w) as ->.
  { subst r. apply interaction_no_rerun. by rewrite Hr. }
  assert (phase_of (session (script sv wd w).2) = Some COMPLETE) as Hphase1
    by (by rewrite Hs).
  split; [done|]. split; [done|]. split; [done|].
  split; [by rewrite Hd, Hdisk|].
  intros sv' wd'.
  destruct (save_result_failed_again _ _ _ _ Hsave) as [e' Hsave1].
  pose proof (script_complete sv' wd' _ Hphase1) as Hrun1. unfold wp in Hrun1.
  rewrite Hs, Hd in Hrun1. unfold opened in Hrun1. cbn [session] in Hrun1.
  rewrite save_result_language, Hsave1 in Hrun1.
  destruct Hrun1 as (Hr1 & _). exists e'.
  rewrite interaction_no_rerun by (by rewrite Hr1). exact Hr1.
Qed.

(** The file is not JSON and the restart button is pressed. *)
Lemma failed_save_blocks_restart_witness :
  let w := {| session := Demo.done_session; disk := Sample.broken; log := [] |} in
  start_new Sample.restart = true
  ∧ (interaction Demo.online Sample.restart w).1 = Raised JSONDecodeError
  ∧ conversation (session (interaction Demo.online Sample.restart w).2)
    = conversation Demo.done_session.
Proof.
  split; [reflexivity|].
  destruct (failed_save_blocks_restart Demo.online Sample.restart
              {| session := Demo.done_session; disk := Sample.broken; log := [] |}
              JSONDecodeError eq_refl eq_refl)
    as (Hr & Hs & _).
  split; [exact Hr|]. by rewrite Hs.
Defined.

(** X15. "Start New Interview", pressed on a finished interview whose
    record could be saved, gives back the session of a new visitor: every
    key has its initial value except the display language, the form is shown
    again, and the record that was just saved stays in the store. *)
Theorem restart_gives_initial_session :
  ∀ sv wd w,
    phase_of (session w) = Some COMPLETE →
    start_new wd = true →
    (save_interview w).1 = Value () →
    let r := interaction sv wd w in
    r.1 ≠ Rerun
    ∧ session r.2
      = set_preferred_language (lang_options (selected_lang wd)) initial_session
    ∧ phase_of (session r.2) = Some INTAKE
    ∧ disk r.2 = disk (save_interview w).2.
Proof.
  intros sv wd w Hphase Hnew Hsaved%save_interview_returned r.
  pose proof (script_complete sv wd w Hphase) as Hrun. unfold wp in Hrun.
  rewrite Hsaved, Hnew in Hrun. destruct Hrun as (Hd & Hr & Hs).
  destruct (script_intake_idle sv (released wd) (script sv wd w).2)
    as (Hr1 & Hs1 & Hd1); [by rewrite Hs | by left |].
  subst r. rewrite interaction_rerun by done.
  split; [done|].
  assert (session (script sv (released wd) (script sv wd w).2).2
          = set_preferred_language (lang_options (selected_lang wd))
              initial_session) as Hfinal.
  { rewrite Hs1. unfold opened. simpl. by rewrite Hs. }
  rewrite Hfinal. split; [done|]. split; [done|]. by rewrite Hd1.
Qed.

Lemma restart_gives_initial_session_witness :
  let r := interaction Demo.online Sample.restart Demo.done_world in
  session r.2 = set_preferred_language "hi" initial_session
  ∧ ∃ data, load_from (disk r.2) = inr data
            ∧ is_Some (data !! "a@x.com").
Proof.
  destruct (restart_gives_initial_session Demo.online Sample.restart
              Demo.done_world eq_refl eq_refl eq_refl)
    as (_ & Hs & _ & Hd).
  split; [exact Hs|]. rewrite Hd.
  eexists. split; [reflexivity|]. by eexists.
Defined.

(** X16. The summary can be looked at again and again: an interaction on a
    finished interview that is not a restart saves the record once more, and
    a second interaction, a restart included, leaves the store exactly as the
    first one left it, be it that the save succeeded or raised. *)
Theorem complete_store_is_stable :
  ∀ sv wd sv' wd' w,
    phase_of (session w) = Some COMPLETE →
    start_new wd = false →
    let w1 := (interaction sv wd w).2 in
    let w2 := (interaction sv' wd' w1).2 in
    phase_of (session w1) = Some COMPLETE
    ∧ disk w2 = disk w1.
Proof.
  intros sv wd sv' wd' w Hphase Hstay w1 w2.
  pose proof (script_complete sv wd w Hphase) as Hrun. unfold wp in Hrun.
  rewrite Hstay in Hrun.
  assert ((script sv wd w).1 ≠ Rerun
          ∧ session (script sv wd w).2 = session (opened wd w)
          ∧ match save_result (session w) (disk (script sv wd w).2) with
            | inl (_, d) | inr d => d = disk (script sv wd w).2
            end) as (Hr & Hs & Hsame).
  { destruct (save_result (session w) (disk w)) as [[e d0]|d'] eqn:Hsave.
    - destruct Hrun as (Hr & Hs & Hd). rewrite Hr, Hd.
      destruct (save_result_failed_again _ _ _ _ Hsave) as [e' ->]. by split.
    - destruct Hrun as (Hd & Hr & Hs). rewrite Hd.
      by rewrite (save_result_again _ _ _ Hsave). }
  assert (w1 = (script sv wd w).2) as Hw1.
  { subst w1. by rewrite interaction_no_rerun. }
  assert (phase_of (session w1) = Some COMPLETE) as Hphase1.
  { by rewrite Hw1, Hs. }
  split; [exact Hphase1|].
  pose proof (script_complete sv' wd' w1 Hphase1) as Hrun1. unfold wp in Hrun1.
  assert (save_result (session w1) (disk w1)
          = save_result (session w) (disk w1)) as Hsave1.
  { rewrite Hw1, Hs. apply save_result_language. }
  rewrite Hsave1 in Hrun1. rewrite <- Hw1 in Hsame.
  assert (disk (script sv' wd' w1).2 = disk w1
          ∧ ((script sv' wd' w1).1 = Rerun →
             phase_of (session (script sv' wd' w1).2) ≠ Some COMPLETE))
    as [Hd1 Hphase2].
  { destruct (save_result (session w) (disk w1)) as [[e d0]|d'].
    - destruct Hrun1 as (Hr1 & _ & Hd1). split; [congruence|].
      by rewrite Hr1.
    - destruct Hrun1 as (Hd1 & Hrun1). split; [congruence|].
      destruct (start_new wd').
      + by destruct Hrun1 as (_ & ->).
      + by destruct Hrun1 as (Hr1 & _). }
  subst w2. unfold interaction.
  destruct (script sv' wd' w1) as [[[]| |e] w1']; try exact Hd1.
  simpl in Hd1, Hphase2.
  destruct (script_frame sv' (released wd') w1') as (_ & _ & Hd2).
  rewrite (Hd2 (Hphase2 eq_refl)). exact Hd1.
Qed.

Lemma complete_store_is_stable_witness :
  let w1 := (interaction Demo.online (Demo.reply Telugu "One more.")
               Demo.done_world).2 in
  is_Some (data_file (disk w1))
  ∧ disk (interaction Demo.online Sample.restart w1).2 = disk w1.
Proof.
  split; [by eexists|].
  exact (proj2 (complete_store_is_stable
                  Demo.online (Demo.reply Telugu "One more.")
                  Demo.online Sample.restart Demo.done_world
                  eq_refl eq_refl)).
Defined.

(** ** Executions and reruns *)

(** X17. An interaction takes at most two executions of the script: the
    one that a rerun starts never asks for another rerun, so the outcome of
    an interaction is a return or an exception. *)
Theorem interaction_settles :
  ∀ sv wd w,
    (script sv (released wd) w).1 ≠ Rerun
    ∧ (interaction sv wd w).1 ≠ Rerun.
Proof.
  intros sv wd w. split; [apply released_no_rerun|].
  unfold interaction.
  destruct (script sv wd w) as [[[]| |e] w1] eqn:Hrun; simpl; try done.
  apply released_no_rerun.
Qed.

(** X18. The two tests of lines 98 and 133 never both succeed in one
    execution: the script draws the top of the page, then runs exactly one
    of the form, the current question and the end of the interview, the one
    that the phase of the session at the start selects (none for a started
    interview without questions), and then the admin view. *)
Theorem one_part_per_execution :
  ∀ sv wd w,
    script sv wd w
    = (page_top wd ;;
       match phase_of (session w) with
       | Some INTAKE => gather_candidate_info sv wd
       | Some INTERVIEWING => ask_question sv wd (question_index (session w))
       | Some COMPLETE => complete_interview sv wd
       | None => mret ()
       end ;;
       admin_view sv wd) w.
Proof. intros sv wd w. apply script_dispatch. Qed.

(** ** Strings, further *)

Section StripFacts.

Implicit Types (l : list ascii) (s : string).

Lemma chars_inj s1 s2 : chars s1 = chars s2 → s1 = s2.
Proof.
  intros Heq. rewrite <- (string_of_list_ascii_of_string s1),
    <- (string_of_list_ascii_of_string s2). unfold chars in Heq. by rewrite Heq.
Qed.

Lemma chars_rev_app s1 s2 :
  chars (String.rev_app s1 s2) = rev (chars s1) ++ chars s2.
Proof.
  revert s2. induction s1 as [|c s1 IH]; intros s2; simpl; [done|].
  rewrite IH. simpl. by rewrite <- app_assoc.
Qed.

Lemma chars_rev s : chars (String.rev s) = rev (chars s).
Proof. unfold String.rev. rewrite chars_rev_app. simpl. by rewrite app_nil_r. Qed.

Lemma chars_lstrip s : chars (PyStr.lstrip s) = skip_spaces (chars s).
Proof.
  induction s as [|c s IH]; simpl; [done|].
  by destruct (PyStr.isspace c).
Qed.

Lemma chars_strip s :
  chars (PyStr.strip s)
  = rev (skip_spaces (rev (skip_spaces (chars s)))).
Proof.
  unfold PyStr.strip, PyStr.rstrip.
  by rewrite chars_rev, chars_lstrip, chars_rev, chars_lstrip.
Qed.

Lemma skip_spaces_split l :
  ∃ blanks, l = blanks ++ skip_spaces l
            ∧ Forall (λ c, PyStr.isspace c = true) blanks.
Proof.
  induction l as [|c l (blanks & Hl & Hblanks)]; simpl.
  - by exists [].
  - destruct (PyStr.isspace c) eqn:Hc.
    + exists (c :: blanks). split; [simpl; by f_equal | by constructor].
    + by exists [].
Qed.

Lemma skip_spaces_nil l :
  skip_spaces l = [] ↔ Forall (λ c, PyStr.isspace c = true) l.
Proof.
  induction l as [|c l IH]; simpl; [done|].
  destruct (PyStr.isspace c) eqn:Hc.
  - rewrite IH. split; [by constructor | by inversion 1].
  - split; [done|]. inversion 1; congruence.
Qed.

Lemma skip_spaces_head l c l' :
  skip_spaces l = c :: l' → PyStr.isspace c = false.
Proof.
  induction l as [|c0 l IH]; simpl; [done|].
  destruct (PyStr.isspace c0) eqn:Hc; [done|]. by intros [= <- _].
Qed.

Lemma skip_spaces_fixed c l :
  PyStr.isspace c = false → skip_spaces (c :: l) = c :: l.
Proof. intros Hc. simpl. by rewrite Hc. Qed.

(** Both ends of a trimmed list are not blank, so trimming it again does
    nothing. *)
Lemma trim_fixed l :
  let t := rev (skip_spaces (rev (skip_spaces l))) in
  skip_spaces t = t ∧ skip_spaces (rev t) = rev t.
Proof.
  intros t. subst t. set (k := skip_spaces l).
  destruct (skip_spaces_split (rev k)) as (blanks & Hk & Hblanks).
  set (r := skip_spaces (rev k)) in *.
  split.
  - destruct r as [|c r'] eqn:Hr; [done|].
    assert (k = rev (c :: r') ++ rev blanks) as Hk'.
    { rewrite <- rev_app_distr, <- Hk. by rewrite rev_involutive. }
    destruct (rev (c :: r')) as [|c1 t1] eqn:Ht.
    { apply (f_equal (@length _)) in Ht. rewrite length_rev in Ht. done. }
    apply skip_spaces_fixed.
    apply (skip_spaces_head l c1 (t1 ++ rev blanks)). fold k. by rewrite Hk'.
  - rewrite rev_involutive. subst r.
    destruct (skip_spaces (rev k)) as [|c r'] eqn:Hr; [done|].
    apply skip_spaces_fixed. by apply (skip_spaces_head (rev k) c r').
Qed.

Lemma strip_idempotent s : PyStr.strip (PyStr.strip s) = PyStr.strip s.
Proof.
  apply chars_inj. rewrite (chars_strip (PyStr.strip s)), (chars_strip s).
  destruct (trim_fixed (chars s)) as [Hl Hr]. simpl in Hl, Hr.
  by rewrite Hl, Hr, rev_involutive.
Qed.

Lemma strip_empty_iff s : PyStr.strip s = "" ↔ all_space s.
Proof.
  unfold all_space. split.
  - intros Hs. apply (f_equal chars) in Hs. rewrite chars_strip in Hs.
    simpl in Hs.
    destruct (skip_spaces_split (chars s)) as (b1 & H1 & Hb1).
    destruct (skip_spaces_split (rev (skip_spaces (chars s))))
      as (b2 & H2 & Hb2).
    apply (f_equal (@rev _)) in Hs. rewrite rev_involutive in Hs. simpl in Hs.
    rewrite Hs, app_nil_r in H2.
    rewrite H1. apply Forall_app. split; [done|].
    apply (f_equal (@rev _)) in H2. rewrite rev_involutive in H2.
    rewrite H2. by apply Forall_rev.
  - intros Hs. apply chars_inj. rewrite chars_strip.
    by apply skip_spaces_nil in Hs as ->.
Qed.

Lemma chars_strip_subset s c : In c (chars (PyStr.strip s)) → In c (chars s).
Proof.
  rewrite chars_strip. intros Hc%in_rev.
  destruct (skip_spaces_split (rev (skip_spaces (chars s)))) as (b2 & H2 & _).
  assert (In c (rev (skip_spaces (chars s)))) as Hc1.
  { rewrite H2. apply in_or_app. by right. }
  apply in_rev in Hc1.
  destruct (skip_spaces_split (chars s)) as (b1 & H1 & _).
  rewrite H1. apply in_or_app. by right.
Qed.

Lemma split_lines_no_newline s piece :
  In piece (PyStr.split_lines s) → ¬ In PyStr.newline (chars piece).
Proof.
  revert piece. induction s as [|c s IH]; intros piece; simpl.
  - intros [<- | []]. simpl. tauto.
  - destruct (ascii_dec c PyStr.newline) as [->|Hc].
    + intros [<- | Hin]; [simpl; tauto | by apply IH].
    + destruct (PyStr.split_lines s) as [|h r] eqn:Hsplit.
      * intros [<- | []]. simpl. intros [Heq | []]. by destruct Hc.
      * intros [<- | Hin].
        -- simpl. intros [Heq | Hin]; [by destruct Hc|].
           apply (IH h); [by left | done].
        -- apply IH. by right.
Qed.

End StripFacts.

Section LowerFacts.

Lemma append_cons (x : ascii) (a b : string) :
  String x a +:+ b = String x (a +:+ b).
Proof. reflexivity. Qed.

Lemma append_assoc (a b c : string) : (a +:+ b) +:+ c = a +:+ (b +:+ c).
Proof.
  induction a as [|x a IH]; [done|]. by rewrite !append_cons, IH.
Qed.

Lemma lower_append (a b : string) :
  PyStr.lower (a +:+ b) = PyStr.lower a +:+ PyStr.lower b.
Proof.
  induction a as [|x a IH]; [done|].
  rewrite append_cons. simpl. by rewrite IH.
Qed.

Lemma lower_char_idempotent (c : ascii) :
  PyStr.lower_char (PyStr.lower_char c) = PyStr.lower_char c.
Proof. by destruct c as [[] [] [] [] [] [] [] []]. Qed.

Lemma lower_idempotent (s : string) : PyStr.lower (PyStr.lower s) = PyStr.lower s.
Proof.
  induction s as [|c s IH]; simpl; [done|].
  by rewrite lower_char_idempotent, IH.
Qed.

Lemma occurs_in_context (sub before s after : string) :
  PyStr.occurs_in sub s → PyStr.occurs_in sub (before +:+ s +:+ after).
Proof.
  intros (pre & post & ->). exists (before +:+ pre), (post +:+ after).
  by rewrite !append_assoc.
Qed.

End LowerFacts.

(** X19. Validation looks for a keyword anywhere and in any case: what
    passes still passes with any text before and after it; lowering the text
    first changes nothing; the empty text fails. *)
Theorem validate_ignores_context_and_case :
  (∀ before stack after,
      validate_tech_stack stack = true →
      validate_tech_stack (before +:+ stack +:+ after) = true)
  ∧ (∀ stack, validate_tech_stack (PyStr.lower stack) = validate_tech_stack stack)
  ∧ validate_tech_stack "" = false.
Proof.
  split; [|split; [|done]].
  - intros before stack after. unfold validate_tech_stack.
    rewrite !existsb_exists. intros (tech & Hin & Hfound).
    exists tech. split; [done|].
    apply contains_spec. rewrite !lower_append.
    by apply occurs_in_context, contains_spec.
  - intros stack. unfold validate_tech_stack. by rewrite lower_idempotent.
Qed.

Lemma validate_ignores_context_and_case_witness :
  validate_tech_stack "SQL" = true
  ∧ validate_tech_stack ("I know " +:+ "SQL" +:+ " well") = true.
Proof.
  split; [reflexivity|].
  apply (proj1 validate_ignores_context_and_case). reflexivity.
Defined.

(** X20. The test of line 151 (and of line 94) rejects exactly the texts
    made of whitespace only: the trimmed text is empty if and only if every
    character is a blank; and trimming twice is trimming once. *)
Theorem blank_is_only_whitespace :
  ∀ text,
    (PyStr.truthy (PyStr.strip text) = false ↔
     ∀ c, In c (chars text) → PyStr.isspace c = true)
    ∧ PyStr.strip (PyStr.strip text) = PyStr.strip text.
Proof.
  intros text. split; [|apply strip_idempotent].
  assert (PyStr.truthy (PyStr.strip text) = false ↔ PyStr.strip text = "")
    as ->.
  { by destruct (PyStr.strip text). }
  rewrite strip_empty_iff. unfold all_space. by rewrite List.Forall_forall.
Qed.

Section Generation.

Variable sv : services.

Lemma generate_questions_run (tech response : string) (w : world) :
  validate_tech_stack tech = true →
  invoke sv (prompt_for tech) = Some response →
  (generate_questions sv tech w).1
  = Value (generated sv (preferred_language (session w)) response).
Proof.
  intros Hvalid Hresponse.
  unfold generate_questions. rewrite Hvalid. simpl.
  unfold mbind, M_bind, emit. rewrite Hresponse. simpl.
  rewrite strip_filter_usable. fold (usable_lines response).
  unfold generated. destruct (nonempty (usable_lines response)); [done|].
  by rewrite localized_run.
Qed.

Lemma usable_line_trimmed (response q : string) :
  In q (usable_lines response) →
  trimmed q ∧ ¬ In PyStr.newline (chars q).
Proof.
  unfold usable_lines. intros [Hq Htruthy]%List.filter_In.
  apply List.in_map_iff in Hq as (piece & <- & Hpiece).
  split; [split|].
  - by destruct (PyStr.strip piece).
  - apply strip_idempotent.
  - intros Hin%chars_strip_subset. by apply (split_lines_no_newline _ _ Hpiece).
Qed.

Lemma in_firstn {A} (n : nat) (l : list A) (x : A) :
  In x (firstn n l) → In x l.
Proof.
  intros Hx. rewrite <- (firstn_skipn n l). apply in_or_app. by left.
Qed.

End Generation.

(** X21. The questions taken from a response are clean single lines: when
    the response has a usable line, every question that
    [generate_questions] returns is not empty, has no blank at either end
    ([strip] leaves it as it is), holds no line feed, and is one of the
    usable lines of the response. *)
Theorem generated_questions_are_trimmed_lines :
  ∀ sv tech response w,
    validate_tech_stack tech = true →
    invoke sv (prompt_for tech) = Some response →
    nonempty (usable_lines response) = true →
    ∃ qs,
      (generate_questions sv tech w).1 = Value qs
      ∧ ∀ q, In q qs →
             q ≠ "" ∧ PyStr.strip q = q
             ∧ ¬ In PyStr.newline (chars q)
             ∧ In q (usable_lines response).
Proof.
  intros sv tech response w Hvalid Hresponse Hlines.
  exists (firstn 5 (usable_lines response)). split.
  - rewrite (generate_questions_run sv tech response w Hvalid Hresponse).
    unfold generated. by rewrite Hlines.
  - intros q Hq%in_firstn.
    destruct (usable_line_trimmed response q Hq) as [[Hne Htrim] Hline].
    done.
Qed.

Lemma generated_questions_are_trimmed_lines_witness :
  ∃ qs,
    (generate_questions Demo.online "Python, SQL" (fresh Demo.no_file)).1
    = Value qs
    ∧ ∀ q, In q qs → PyStr.strip q = q.
Proof.
  set (response := "1. What is a list?" +:+ Demo.line_feed +:+ Demo.line_feed
                     +:+ "   2. What is a join?  " +:+ Demo.line_feed).
  assert (validate_tech_stack "Python, SQL" = true) as Hvalid
    by (vm_compute; reflexivity).
  assert (invoke Demo.online (prompt_for "Python, SQL") = Some response)
    as Hresponse by reflexivity.
  assert (nonempty (usable_lines response) = true) as Hlines
    by (vm_compute; reflexivity).
  destruct (generated_questions_are_trimmed_lines
              Demo.online "Python, SQL" response (fresh Demo.no_file)
              Hvalid Hresponse Hlines) as (qs & Hrun & Hqs).
  exists qs. split; [exact Hrun|]. intros q Hq.
  destruct (Hqs q Hq) as (_ & Htrim & _). exact Htrim.
Defined.

(** ** Which service is called when *)

Section Calls.

Variable F : event → Prop.
Hypothesis F_shown : ∀ e, ¬ F (Shown e).

Lemma clean_refl (w : world) : clean F w w.
Proof. exists []. by rewrite app_nil_r. Qed.

Lemma clean_trans (w1 w2 w3 : world) :
  clean F w1 w2 → clean F w2 w3 → clean F w1 w3.
Proof.
  intros (l1 & H1 & Hl1) (l2 & H2 & Hl2). exists (l1 ++ l2).
  split; [by rewrite H2, H1, app_assoc | by apply Forall_app].
Qed.

Lemma clean_add_log (w0 w : world) (l : list event) :
  Forall (λ e, ¬ F e) l → clean F w0 w → clean F w0 (add_log l w).
Proof.
  intros Hl Hw. apply (clean_trans _ w); [done|]. by exists l.
Qed.

Lemma clean_same_log (w0 w : world) (s : session_state) (d : storage) :
  clean F w0 w → clean F w0 {| session := s; disk := d; log := log w |}.
Proof. intros (l & Hl & Hclean). by exists l. Qed.

Lemma tame_ret {A} (a : A) : tame F (mret a).
Proof.
  intros w _. exists a, []. split; [|done].
  destruct w. unfold add_log. simpl. by rewrite app_nil_r.
Qed.

Lemma tame_bind {A B} (m : M A) (k : A → M B) :
  tame F m → (∀ a, tame F (k a)) → tame F (m ≫= k).
Proof.
  intros Hm Hk w Hw. unfold mbind, M_bind.
  destruct (Hm w Hw) as (a & l1 & -> & Hl1).
  destruct (Hk a (add_log l1 w) Hw) as (b & l2 & -> & Hl2).
  exists b, (l1 ++ l2). split; [by rewrite add_log_add_log|].
  by apply Forall_app.
Qed.

Lemma tame_show (e : element) : tame F (show e).
Proof.
  intros w _. exists (), [Shown e]. split; [done|].
  constructor; [apply F_shown | done].
Qed.

Lemma tame_get_session : tame F get_session.
Proof.
  intros w _. exists (session w), []. split; [|done].
  destruct w. unfold add_log. simpl. by rewrite app_nil_r.
Qed.

Lemma tame_localized sv (text : string) : tame F (localized sv text).
Proof. intros w Hw. rewrite localized_run. eexists _, _. split; [done|]. apply Hw. Qed.

Lemma tame_for_each {A} (body : nat → A → M unit) (l : list A) :
  (∀ idx x, tame F (body idx x)) → ∀ idx, tame F (for_each_from idx l body).
Proof.
  intros Hbody. induction l as [|x l IH]; intros idx; simpl.
  - apply tame_ret.
  - apply tame_bind; [apply Hbody | intros _; apply IH].
Qed.

Lemma tame_mild {A} (m : M A) : tame F m → mild F m.
Proof.
  intros Hm w Hw. destruct (Hm w Hw) as (a & l & -> & Hl).
  by exists (Value a), l.
Qed.

Lemma mild_bind {A B} (m : M A) (k : A → M B) :
  mild F m → (∀ a, mild F (k a)) → mild F (m ≫= k).
Proof.
  intros Hm Hk w Hw. unfold mbind, M_bind.
  destruct (Hm w Hw) as (r & l1 & -> & Hr & Hl1).
  destruct r as [a| |e]; [|done|by exists (Raised e), l1].
  destruct (Hk a (add_log l1 w) Hw) as (r & l2 & -> & Hr' & Hl2).
  exists r, (l1 ++ l2). split; [by rewrite add_log_add_log|].
  split; [done|]. by apply Forall_app.
Qed.

Lemma mild_load_data : mild F load_data.
Proof.
  intros w _. unfold load_data.
  destruct (load_from (disk w)) as [e|data].
  - exists (Raised e), []. destruct w. unfold add_log. simpl.
    by rewrite app_nil_r.
  - exists (Value data), []. destruct w. unfold add_log. simpl.
    by rewrite app_nil_r.
Qed.

Lemma wp_tame {A} (m : M A) (Q : outcome A → world → Prop) (w : world) :
  tame F m → lang_ok F (preferred_language (session w)) →
  (∀ a l, Forall (λ e, ¬ F e) l → Q (Value a) (add_log l w)) →
  wp m Q w.
Proof.
  intros Hm Hw HQ. unfold wp. destruct (Hm w Hw) as (a & l & -> & Hl).
  by apply HQ.
Qed.

Lemma wp_mild {A} (m : M A) (Q : outcome A → world → Prop) (w : world) :
  mild F m → lang_ok F (preferred_language (session w)) →
  (∀ r l, r ≠ Rerun → Forall (λ e, ¬ F e) l → Q r (add_log l w)) →
  wp m Q w.
Proof.
  intros Hm Hw HQ. unfold wp. destruct (Hm w Hw) as (r & l & -> & Hr & Hl).
  by apply HQ.
Qed.

End Calls.

Create HintDb tame.

#[local] Hint Resolve tame_ret tame_show tame_get_session tame_localized : tame.

Ltac tame_steps :=
  repeat first
    [ solve [auto with tame]
    | apply tame_for_each; intros ? ?
    | apply tame_bind; [|intros ?] ].

Section CallsOfParts.

Variable F : event → Prop.
Hypothesis F_shown : ∀ e, ¬ F (Shown e).
Variables (sv : services) (wd : widgets).

Lemma candidate_info_form_tame : tame F (candidate_info_form sv).
Proof. unfold candidate_info_form. tame_steps. Qed.

Lemma show_responses_tame : tame F (show_responses sv).
Proof. unfold show_responses. tame_steps. Qed.

Lemma saved_candidates_tame data : tame F (saved_candidates sv data).
Proof.
  unfold saved_candidates. destruct (nonempty (map_to_list data)); tame_steps.
Qed.

Lemma admin_view_mild : mild F (admin_view sv wd).
Proof.
  unfold admin_view.
  apply mild_bind; [apply tame_mild; auto with tame | intros l].
  apply mild_bind; [apply tame_mild; auto with tame | intros _].
  destruct (show_admin wd); cbn [when].
  - apply mild_bind; [apply mild_load_data | intros data].
    apply tame_mild, saved_candidates_tame.
  - apply tame_mild, tame_ret.
Qed.

End CallsOfParts.

Section CallsOfScript.

Variable F : event → Prop.
Hypothesis F_shown : ∀ e, ¬ F (Shown e).
Variables (sv : services) (wd : widgets).

Lemma translator_calls_en (text : string) : translator_calls text "en" = [].
Proof. done. Qed.

(** The log of the goal has grown by clean events only. *)
Ltac clean_solve :=
  unfold clean; cbn [log add_log session preferred_language];
  rewrite ?translator_calls_en, <- ?app_assoc;
  eexists; split; [first [reflexivity | symmetry; apply app_nil_r]|];
  repeat match goal with
    | |- Forall _ (_ ++ _) => apply Forall_app; split
    | |- Forall _ (_ :: _) => apply List.Forall_cons
    | |- Forall _ [] => apply List.Forall_nil
    | |- Forall _ (translator_calls _ _) =>
        match goal with H : lang_ok F _ |- _ => apply H end
    | |- Forall _ _ => assumption
    | |- ¬ F (Shown _) => apply F_shown
    | |- ¬ F _ => solve [auto]
    end.

Lemma gather_clean (w : world) :
  lang_ok F (preferred_language (session w)) →
  (∀ p, ¬ F (Called_invoke p)) ∨ submit_info wd = false ∨ generates wd = false →
  wp (gather_candidate_info sv wd) (λ _ w', clean F w w') w.
Proof.
  intros Hlang Hgen. unfold gather_candidate_info.
  apply wp_bind, (wp_tame F); [by apply candidate_info_form_tame | done |].
  intros [] l Hl. wp_simpl.
  destruct (submit_info wd) eqn:Hsubmit; cbn [when]; [|wp_steps; clean_solve].
  unfold on_submit_info.
  destruct (_ || _) eqn:Htest; wp_steps; [clean_solve|].
  unfold generate_questions.
  destruct (negb (validate_tech_stack (tech_stack wd))) eqn:Hvalid; wp_steps;
    [clean_solve|].
  assert (∀ p, ¬ F (Called_invoke p)) as Hinvoke.
  { destruct Hgen as [Hgen | [Hgen | Hgen]]; [done | done |].
    exfalso. unfold generates in Hgen.
    apply negb_false_iff in Hvalid. rewrite Hvalid, andb_true_r in Hgen.
    revert Htest Hgen.
    by destruct (PyStr.truthy (full_name wd)), (PyStr.truthy (email wd)),
      (PyStr.truthy (phone wd)), (PyStr.truthy (tech_stack wd)). }
  destruct (invoke sv _); wp_steps; [|clean_solve].
  destruct (nonempty _); wp_steps; clean_solve.
Qed.

Lemma ask_clean (w : world) (index : nat) :
  lang_ok F (preferred_language (session w)) →
  (∀ t, ¬ F (Called_polarity t)) ∨ submit_answer wd = false
  ∨ PyStr.truthy
      (PyStr.strip (text_area (typed_answer wd) (current_answer (session w))))
    = false →
  wp (ask_question sv wd index) (λ _ w', clean F w w') w.
Proof.
  intros Hlang Hpol. unfold ask_question, item. wp_steps.
  destruct (questions (session w) !! index) as [q|]; wp_steps; [|clean_solve].
  destruct (submit_answer wd) eqn:Hsubmit; cbn [when]; [|wp_steps; clean_solve].
  unfold on_submit_answer, item. wp_steps.
  destruct (negb (PyStr.truthy _)) eqn:Hblank; wp_steps; [clean_solve|].
  assert (∀ t, ¬ F (Called_polarity t)) as Hcall.
  { destruct Hpol as [Hpol | [Hpol | Hpol]]; [done | done |].
    rewrite Hpol in Hblank. discriminate Hblank. }
  destruct (questions (session w) !! index); wp_steps; clean_solve.
Qed.

Lemma complete_clean (w : world) :
  lang_ok F (preferred_language (session w)) →
  wp (complete_interview sv wd) (λ _ w', clean F w w') w.
Proof.
  intros Hlang. unfold complete_interview. apply wp_bind, wp_save_interview.
  destruct (save_result (session w) (disk w)) as [[e d0]|d']; wp_simpl;
    [clean_solve|].
  apply wp_bind, (wp_tame F); [by apply show_responses_tame | done |].
  intros [] l Hl. wp_simpl. unfold restart_option. wp_steps.
  destruct (start_new wd); cbn [when]; wp_steps; clean_solve.
Qed.

Lemma script_clean (w : world) :
  lang_ok F (lang_options (selected_lang wd)) →
  (∀ p, ¬ F (Called_invoke p)) ∨ phase_of (session w) ≠ Some INTAKE
  ∨ submit_info wd = false ∨ generates wd = false →
  (∀ t, ¬ F (Called_polarity t)) ∨ phase_of (session w) ≠ Some INTERVIEWING
  ∨ submit_answer wd = false
  ∨ PyStr.truthy
      (PyStr.strip (text_area (typed_answer wd) (current_answer (session w))))
    = false →
  clean F w (script sv wd w).2.
Proof.
  intros Hlang Hgen Hpol.
  change (wp (script sv wd) (λ _ w', clean F w w') w).
  apply wp_script. do 2 wp_step. apply wp_bind.
  assert (clean F w (opened wd w)) as Htop.
  { exists top_of_page. split; [done|]. repeat constructor; apply F_shown. }
  assert (∀ (r : outcome ()) w', clean F (opened wd w) w' →
            lang_ok F (preferred_language (session w')) →
            after (λ _ : (), admin_view sv wd) (λ _ w'', clean F w w'') r w')
    as Hrest.
  { intros [[]| |e] w' Hw' Hlang'; wp_simpl;
      try (by apply (clean_trans F _ (opened wd w))).
    apply (wp_mild F); [by apply admin_view_mild | done |].
    intros r l _ Hl. apply clean_add_log; [done|].
    by apply (clean_trans F _ (opened wd w)). }
  destruct (phase_of (session w)) as [[| |]|] eqn:Hphase.
  - destruct (gather_frame sv wd (opened wd w)) as (_ & Hl & _).
    { by apply phase_intake in Hphase. }
    pose proof (gather_clean (opened wd w) Hlang) as Hpart. unfold wp in *.
    apply Hrest; [|by rewrite Hl].
    apply Hpart. destruct Hgen as [?|[?|[?|?]]]; try done; auto.
  - destruct (ask_frame sv wd (opened wd w) (question_index (session w)))
      as (_ & Hl & _).
    pose proof (ask_clean (opened wd w) (question_index (session w)) Hlang)
      as Hpart. unfold wp in *.
    apply Hrest; [|by rewrite Hl].
    apply Hpart. destruct Hpol as [?|[?|[?|?]]]; try done; auto.
  - destruct (complete_frame sv wd (opened wd w)) as (Hl & _).
    pose proof (complete_clean (opened wd w) Hlang) as Hpart. unfold wp in *.
    apply Hrest; [by apply Hpart | by rewrite Hl].
  - wp_steps. apply (Hrest (Value ())); [apply clean_refl | done].
Qed.

End CallsOfScript.

Lemma interaction_clean (F : event → Prop) (sv : services) (wd : widgets)
    (w : world) :
  (∀ e, ¬ F (Shown e)) →
  lang_ok F (lang_options (selected_lang wd)) →
  (∀ p, ¬ F (Called_invoke p)) ∨ phase_of (session w) ≠ Some INTAKE
  ∨ submit_info wd = false ∨ generates wd = false →
  (∀ t, ¬ F (Called_polarity t)) ∨ phase_of (session w) ≠ Some INTERVIEWING
  ∨ submit_answer wd = false
  ∨ PyStr.truthy
      (PyStr.strip (text_area (typed_answer wd) (current_answer (session w))))
    = false →
  clean F w (interaction sv wd w).2.
Proof.
  intros HF Hlang Hgen Hpol.
  pose proof (script_clean F HF sv wd w Hlang Hgen Hpol) as Hfirst.
  unfold interaction.
  destruct (script sv wd w) as [[[]| |e] w1]; try exact Hfirst.
  apply (clean_trans F _ w1); [exact Hfirst|].
  apply (script_clean F HF sv (released wd) w1); [done | auto | auto].
Qed.

Lemma clean_no_event (F : event → Prop) (w w' : world) :
  clean F w w' → ∃ l, log w' = log w ++ l ∧ ∀ e, In e l → ¬ F e.
Proof.
  intros (l & Hl & Hclean). exists l. split; [done|].
  by apply List.Forall_forall.
Qed.

(** X22. With English selected, the translator is never called: over a
    whole interaction, whatever the phase and whatever is submitted, the log
    grows by no call to the translation service (every text is shown as it
    is, and the answer goes to the scorer untranslated). *)
Theorem english_never_calls_translator :
  ∀ sv wd w,
    selected_lang wd = English →
    ∃ l, log (interaction sv wd w).2 = log w ++ l
         ∧ ∀ text dest, ¬ In (Called_translate text dest) l.
Proof.
  intros sv wd w Henglish.
  destruct (clean_no_event is_translate w (interaction sv wd w).2)
    as (l & Hl & Hclean).
  { apply interaction_clean;
      [intros e He; exact He | | left; intros p Hp; exact Hp
      | left; intros t Ht; exact Ht].
    rewrite Henglish. intros text. apply List.Forall_nil. }
  exists l. split; [done|]. intros text dest Hin. by apply (Hclean _ Hin).
Qed.

Lemma english_never_calls_translator_witness :
  ∃ l, log (interaction Demo.online (Demo.form English 3 "Python, SQL")
              (fresh Demo.no_file)).2 = l
       ∧ ∀ text dest, ¬ In (Called_translate text dest) l.
Proof.
  destruct (english_never_calls_translator
              Demo.online (Demo.form English 3 "Python, SQL")
              (fresh Demo.no_file) eq_refl) as (l & Hl & Hclean).
  exists l. split; [exact Hl | exact Hclean].
Defined.

(** X23. The generator is called only for a form that is submitted
    complete, with a tech stack that passes validation, while no interview is
    running: in every other interaction the log grows by no call to the
    generator. *)
Theorem generator_called_only_for_valid_form :
  ∀ sv wd w,
    phase_of (session w) ≠ Some INTAKE ∨ submit_info wd = false
    ∨ generates wd = false →
    ∃ l, log (interaction sv wd w).2 = log w ++ l
         ∧ ∀ prompt, ¬ In (Called_invoke prompt) l.
Proof.
  intros sv wd w Hno.
  destruct (clean_no_event is_invoke w (interaction sv wd w).2)
    as (l & Hl & Hclean).
  { apply interaction_clean;
      [intros e He; exact He | | by right | left; intros t Ht; exact Ht].
    intros text. unfold translator_calls.
    destruct (decide _); repeat constructor. intros He. exact He. }
  exists l. split; [done|]. intros prompt Hin. by apply (Hclean _ Hin).
Qed.

(** "I like cooking" is submitted: no prompt is sent. *)
Lemma generator_called_only_for_valid_form_witness :
  generates (Demo.form Telugu 3 "I like cooking") = false
  ∧ ∃ l, log (interaction Demo.online (Demo.form Telugu 3 "I like cooking")
                (fresh Demo.no_file)).2 = l
         ∧ ∀ prompt, ¬ In (Called_invoke prompt) l.
Proof.
  split; [reflexivity|].
  destruct (generator_called_only_for_valid_form
              Demo.online (Demo.form Telugu 3 "I like cooking")
              (fresh Demo.no_file) (or_intror (or_intror eq_refl)))
    as (l & Hl & Hclean).
  exists l. split; [exact Hl | exact Hclean].
Defined.

(** X24. The sentiment scorer is called only for an answer that is
    submitted and not blank while a question is shown: in every other
    interaction the log grows by no call to the scorer. *)
Theorem scorer_called_only_for_answers :
  ∀ sv wd w,
    phase_of (session w) ≠ Some INTERVIEWING ∨ submit_answer wd = false
    ∨ PyStr.truthy
        (PyStr.strip (text_area (typed_answer wd) (current_answer (session w))))
      = false →
    ∃ l, log (interaction sv wd w).2 = log w ++ l
         ∧ ∀ text, ¬ In (Called_polarity text) l.
Proof.
  intros sv wd w Hno.
  destruct (clean_no_event is_polarity w (interaction sv wd w).2)
    as (l & Hl & Hclean).
  { apply interaction_clean;
      [intros e He; exact He | | left; intros p Hp; exact Hp | by right].
    intros text. unfold translator_calls.
    destruct (decide _); repeat constructor. intros He. exact He. }
  exists l. split; [done|]. intros text Hin. by apply (Hclean _ Hin).
Qed.

(** Three spaces are submitted as an answer: nothing is scored. *)
Lemma scorer_called_only_for_answers_witness :
  ∃ l, log (interaction Demo.online (Demo.reply Telugu "   ")
              Demo.blank_world).2 = l
       ∧ ∀ text, ¬ In (Called_polarity text) l.
Proof.
  destruct (scorer_called_only_for_answers
              Demo.online (Demo.reply Telugu "   ") Demo.blank_world
              (or_intror (or_intror eq_refl)))
    as (l & Hl & Hclean).
  exists l. split; [exact Hl | exact Hclean].
Defined.
